(** * NukeZone reminder bot: deadline parser, action store and timer engine

    A shallow embedding of [nukezone_reminder_bot.py].  The development
    follows the layout of the source file:

    - [Py]: the few operations of Python's [str] the parser uses;
    - [Re]: a backtracking matcher for the fragment of [re] in which
      [DUR_RE] is written, with named groups;
    - [Dt]: [datetime] and [timedelta] as microsecond counts, with the
      range checks of the [datetime] module;
    - [Parser]: [parse_duration_or_time], over an abstract
      [dateutil.parser.parse];
    - [Store]: the [actions] table and the SQL statements the bot issues;
    - [Engine]: [schedule_task], its [worker] coroutine, the reconciler
      [load_and_schedule_all] and [action_cancel], as tasks of an event
      loop that are interleaved at their [await] points. *)

From Stdlib Require Import ZArith Ascii Lia Bool.
From stdpp Require Import base strings list sorting pretty.

Local Open Scope Z_scope.

(** ** Python strings *)

(** Characters are the code points below 256.  On that range [str.strip]
    and the class [\s] of a [str] pattern agree on what white space is,
    [\d] is the ASCII digits, and the only letters that match the pattern
    letters [d], [h], [m], [s] under [re.I] are their two cases. *)
Module Py.

Definition ord (c : ascii) : N := N_of_ascii c.

Definition isspace (c : ascii) : bool :=
  let n := ord c in
  (((9 <=? n) && (n <=? 13)) || ((28 <=? n) && (n <=? 32))
   || (n =? 133) || (n =? 160))%N.

Definition isdigit (c : ascii) : bool :=
  let n := ord c in ((48 <=? n) && (n <=? 57))%N.

Fixpoint lstrip (s : string) : string :=
  match s with
  | EmptyString => EmptyString
  | String c t => if isspace c then lstrip t else s
  end.

Fixpoint rstrip (s : string) : string :=
  match s with
  | EmptyString => EmptyString
  | String c t =>
      match rstrip t with
      | EmptyString => if isspace c then EmptyString else String c EmptyString
      | t' => String c t'
      end
  end.

(** [s.strip()] *)
Definition strip (s : string) : string := rstrip (lstrip s).

(** [s.replace(" ", "")] *)
Fixpoint remove_spaces (s : string) : string :=
  match s with
  | EmptyString => EmptyString
  | String c t =>
      if Ascii.eqb c " " then remove_spaces t else String c (remove_spaces t)
  end.

Definition digit_value (c : ascii) : Z := Z.of_N (ord c) - 48.

Fixpoint int_acc (acc : Z) (s : string) : Z :=
  match s with
  | EmptyString => acc
  | String c t => int_acc (10 * acc + digit_value c) t
  end.

(** The number a string of decimal digits denotes. *)
Definition decimal (s : string) : Z := int_acc 0 s.

(** Every character of [s] is in the class [p]. *)
Fixpoint all_chars (p : ascii -> bool) (s : string) : bool :=
  match s with
  | EmptyString => true
  | String c t => p c && all_chars p t
  end.

(** [s] begins with a character of the class [p]. *)
Definition starts_with (p : ascii -> bool) (s : string) : bool :=
  match s with
  | EmptyString => false
  | String c _ => p c
  end.

(** [s] without its longest prefix in the class [p]. *)
Fixpoint skip (p : ascii -> bool) (s : string) : string :=
  match s with
  | EmptyString => EmptyString
  | String c t => if p c then skip p t else s
  end.

(** [s] has no white space. *)
Definition no_space (s : string) : bool :=
  all_chars (fun c => negb (isspace c)) s.

(** Exceptions, and the outcome of a call. *)
Inductive exn : Type :=
| ValueError (msg : string)
| OverflowError
| Exception (what : string).

Inductive result (A : Type) : Type :=
| Return (a : A)
| Raise (e : exn).
Arguments Return {A} a.
Arguments Raise {A} e.

(** Sequencing: an exception raised on the left skips the right. *)
#[global] Instance result_bind : MBind result :=
  fun A B f m =>
    match m with
    | Return a => f a
    | Raise e => Raise e
    end.

(** [sys.get_int_max_str_digits()], as the interpreter starts. *)
Definition MAX_STR_DIGITS : nat := 4300.

Definition exceeds_limit (digits : nat) : string :=
  "Exceeds the limit (4300 digits) for integer string conversion: value has "
  +:+ pretty digits
  +:+ " digits; use sys.set_int_max_str_digits() to increase the limit".

(** [int(s)] on a string of decimal digits: the interpreter refuses to
    convert more than [MAX_STR_DIGITS] of them, leading zeros included. *)
Definition int (s : string) : result Z :=
  if (MAX_STR_DIGITS <? String.length s)%nat
  then Raise (ValueError (exceeds_limit (String.length s)))
  else Return (decimal s).

End Py.

(** ** Regular expressions *)

Module Re.

(** The constructs [DUR_RE] is built from.  [Star] and [Plus] repeat a
    character class; all repetitions are greedy, as in [re]. *)
Inductive regex : Type :=
| Class (p : ascii -> bool)
| Star (p : ascii -> bool)
| Plus (p : ascii -> bool)
| Seq (r1 r2 : regex)
| Opt (r : regex)
| Named (name : string) (r : regex).

(** The groups that took part in a match, latest first. *)
Definition captures : Type := list (string * string).

Definition cont : Type := string -> captures -> option captures.

(** The part of [s] in front of its suffix [rest]. *)
Definition consumed (s rest : string) : string :=
  String.substring 0 (String.length s - String.length rest) s.

(** Greedy [p*]: take one more character if possible, give it back when
    the rest of the pattern then fails. *)
Fixpoint star (p : ascii -> bool) (s : string) (caps : captures) (k : cont)
  : option captures :=
  match s with
  | String c t =>
      if p c then
        match star p t caps k with
        | Some m => Some m
        | None => k s caps
        end
      else k s caps
  | EmptyString => k s caps
  end.

Fixpoint rmatch (r : regex) (s : string) (caps : captures) (k : cont)
  : option captures :=
  match r with
  | Class p =>
      match s with
      | String c t => if p c then k t caps else None
      | EmptyString => None
      end
  | Star p => star p s caps k
  | Plus p =>
      match s with
      | String c t => if p c then star p t caps k else None
      | EmptyString => None
      end
  | Seq r1 r2 => rmatch r1 s caps (fun s' caps' => rmatch r2 s' caps' k)
  | Opt r1 =>
      match rmatch r1 s caps k with
      | Some m => Some m
      | None => k s caps
      end
  | Named name r1 =>
      rmatch r1 s caps (fun s' caps' => k s' ((name, consumed s s') :: caps'))
  end.

Definition at_end : cont :=
  fun s caps => match s with EmptyString => Some caps | _ => None end.

(** [r.fullmatch(s)] *)
Definition fullmatch (r : regex) (s : string) : option captures :=
  rmatch r s [] at_end.

(** [m.group(name)]: [None] when the group took no part in the match. *)
Fixpoint group (m : captures) (name : string) : option string :=
  match m with
  | [] => None
  | (n, v) :: m' => if String.eqb n name then Some v else group m' name
  end.

(** A pattern letter under [re.I]. *)
Definition letter (lower upper : ascii) : ascii -> bool :=
  fun c => Ascii.eqb c lower || Ascii.eqb c upper.

End Re.

Import Py Re.

(** [(?:(?P<name>\d+)x)?] *)
Definition component (name : string) (lower upper : ascii) : regex :=
  Opt (Seq (Named name (Plus isdigit)) (Class (letter lower upper))).

(** [DUR_RE], compiled with [re.I]:
    [(?:(?P<days>\d+)d)?\s*(?:(?P<hours>\d+)h)?\s*(?:(?P<mins>\d+)m)?\s*(?:(?P<secs>\d+)s)?] *)
Definition DUR_RE : regex :=
  Seq (component "days" "d" "D")
  (Seq (Star isspace)
  (Seq (component "hours" "h" "H")
  (Seq (Star isspace)
  (Seq (component "mins" "m" "M")
  (Seq (Star isspace)
       (component "secs" "s" "S")))))).

(** ** Dates and times *)

(** A point in time is a count of microseconds since
    [datetime.min = 0001-01-01T00:00:00]; a [timedelta] is a count of
    microseconds.  The [datetime] module refuses values outside
    [datetime.min .. datetime.max] and durations of more than
    [999999999] days with [OverflowError]. *)
Module Dt.

Definition US_PER_SECOND : Z := 1000000.

(** [date.max.toordinal()] *)
Definition MAXORDINAL : Z := 3652059.

(** [datetime.max = 9999-12-31T23:59:59.999999] *)
Definition MAX_US : Z := MAXORDINAL * 86400 * US_PER_SECOND - 1.

Definition in_range (t : Z) : bool := (0 <=? t) && (t <=? MAX_US).

(** What [dateutil] hands back: the wall-clock reading and, for an
    aware value, its offset from UTC. *)
Record datetime : Type := { wall : Z; utcoffset : option Z }.

(** [timedelta(days=.., hours=.., minutes=.., seconds=..)] *)
Definition timedelta (days hours minutes seconds : Z) : result Z :=
  let total := days * 86400 + hours * 3600 + minutes * 60 + seconds in
  if 999999999 <? Z.abs (total / 86400) then Raise OverflowError
  else Return (total * US_PER_SECOND).

(** [t + delta] on a [datetime] *)
Definition datetime_add (t delta : Z) : result Z :=
  if in_range (t + delta) then Return (t + delta) else Raise OverflowError.

(** [dt.replace(tzinfo=timezone.utc)] for a naive [dt],
    [dt.astimezone(timezone.utc)] for an aware one; the latter
    subtracts the offset and so can leave the range. *)
Definition to_utc (dt : datetime) : result Z :=
  match utcoffset dt with
  | None => Return (wall dt)
  | Some off => datetime_add (wall dt) (- off)
  end.

End Dt.

Import Dt.

(** ** The deadline parser *)

Definition HINT : string :=
  "Could not parse duration. Try formats like '8h', '8h30m', '45m', '1d2h', or a datetime like '2025-10-22 23:40'.".

Definition NOT_POSITIVE : string := "Duration must be > 0.".

(** [int(m.group(name) or 0)] *)
Definition group_or_0 (m : captures) (name : string) : result Z :=
  match group m name with
  | Some (String _ _ as v) => int v
  | _ => Return 0
  end.

Section Parser.

(** [dateutil.parser.parse]; [None] when it raises. *)
Variable dtparse : string -> option datetime.

(** The [try] block: any exception raised inside it is swallowed. *)
Definition absolute (s : string) : option Z :=
  match dtparse s with
  | None => None
  | Some dt =>
      match to_utc dt with
      | Return u => Some u
      | Raise _ => None
      end
  end.

(** The statements after the [try] block. *)
Definition duration (s : string) (now_utc : Z) : result Z :=
  match fullmatch DUR_RE (remove_spaces s) with
  | None => Raise (ValueError HINT)
  | Some m =>
      days ← group_or_0 m "days";
      hours ← group_or_0 m "hours";
      mins ← group_or_0 m "mins";
      secs ← group_or_0 m "secs";
      delta ← timedelta days hours mins secs;
      if delta <=? 0 then Raise (ValueError NOT_POSITIVE)
      else datetime_add now_utc delta
  end.

Definition parse_duration_or_time (s : string) (now_utc : Z) : result Z :=
  let s := strip s in
  match absolute s with
  | Some dt => Return dt
  | None => duration s now_utc
  end.

End Parser.

(** ** The action store *)

(** One row of the table [actions].  [created_at] and [ends_at] hold the
    [isoformat()] text of a UTC [datetime]; such texts compare as the
    points in time they denote, which is what a row carries here.  The
    flag [done] is only ever written as 0 or 1. *)
Module Store.

Record Row : Type := {
  id : Z;
  guild_id : Z;
  user_id : Z;
  channel_id : Z;
  action_type : string;
  target : string;
  note : option string;
  created_at : Z;
  ends_at : Z;
  done : bool
}.

Abbreviation table := (list Row).

Definition set_done (r : Row) : Row :=
  {| id := id r; guild_id := guild_id r; user_id := user_id r;
     channel_id := channel_id r; action_type := action_type r;
     target := target r; note := note r; created_at := created_at r;
     ends_at := ends_at r; done := true |}.

(** [UPDATE actions SET done=1 WHERE P]: the table afterwards and
    [cursor.rowcount]. *)
Definition update_set_done (P : Row -> Prop) `{!forall r, Decision (P r)}
    (t : table) : table * nat :=
  ((fun r => if decide (P r) then set_done r else r) <$> t,
   length (filter P t)).

(** [SELECT * FROM actions WHERE id=? AND done=0], then [fetchone()] *)
Definition select_pending_by_id (i : Z) (t : table) : option Row :=
  head (filter (fun r => id r = i /\ done r = false) t).

(** [UPDATE actions SET done=1 WHERE id=?] *)
Definition update_done_by_id (i : Z) (t : table) : table :=
  fst (update_set_done (fun r => id r = i) t).

(** [SELECT * FROM actions WHERE done=0], then [fetchall()] *)
Definition select_pending (t : table) : list Row :=
  filter (fun r => done r = false) t.

Definition ends_before : relation Row :=
  fun a b => ends_at a <= ends_at b.

#[global] Instance ends_before_dec : RelDecision ends_before.
Proof. intros a b. unfold ends_before. apply _. Defined.

(** [SELECT * FROM actions WHERE guild_id=? AND user_id=? AND done=0
    ORDER BY ends_at ASC], then [fetchall()] *)
Definition select_pending_for (g u : Z) (t : table) : list Row :=
  merge_sort ends_before
    (filter (fun r => guild_id r = g /\ user_id r = u /\ done r = false) t).

(** [UPDATE actions SET done=1
     WHERE id=? AND user_id=? AND guild_id=? AND done=0] *)
Definition update_cancel (i u g : Z) (t : table) : table * nat :=
  update_set_done
    (fun r => id r = i /\ user_id r = u /\ guild_id r = g /\ done r = false) t.

(** The [done] flag of the row with primary key [i], if there is one. *)
Definition flag (i : Z) (t : table) : option bool :=
  done <$> head (filter (fun r => id r = i) t).

End Store.

Import Store.

(** ** Commands *)

(** [/action_cancel]: the table afterwards, and whether the reply is
    "Canceled timer" ([true]) or "Could not cancel" ([false]). *)
Definition action_cancel (action_id user guild : Z) (t : table) : table * bool :=
  let '(t', rowcount) := update_cancel action_id user guild t in
  (t', negb (Nat.eqb rowcount 0)).

Inductive listing : Type :=
| NoPending                   (* "You have no pending actions." *)
| Lines (rows : list Row).    (* one line per row, in this order *)

(** [/action_list] *)
Definition action_list (guild user : Z) (t : table) : listing :=
  match select_pending_for guild user t with
  | [] => NoPending
  | rows => Lines rows
  end.

(** ** The timer engine *)

Module Engine.

(** What [schedule_task] computes before it creates the task, in
    microseconds. *)
Definition delay (ends_at now : Z) : Z :=
  let delay := ends_at - now in
  if delay <? 0 then 0 else delay.

(** The content of the reminder. *)
Record notification : Type := {
  mention : Z;
  n_type : string;
  n_target : string;
  finished : Z;
  n_note : option string
}.

Definition message (rec : Row) : notification :=
  {| mention := user_id rec; n_type := action_type rec;
     n_target := target rec; finished := ends_at rec; n_note := note rec |}.

(** How the chat platform answers while a worker delivers: the channel
    cache, the fetch of a channel and the send to a channel. *)
Record discord : Type := {
  get_channel : Z -> option Z;
  fetch_channel : Z -> result Z;
  send : Z -> notification -> result unit
}.

(** What a worker did to the outside world. *)
Inductive effect : Type :=
| Delivered (row : Z) (channel : Z) (n : notification)
| SendFailed (row : Z) (channel : Z).

(** Lines 92 to 98: the cache, then the fetch with its [except]. *)
Definition resolve_channel (net : discord) (cid : Z) : option Z :=
  match get_channel net cid with
  | Some ch => Some ch
  | None =>
      match fetch_channel net cid with
      | Return ch => Some ch
      | Raise _ => None
      end
  end.

(** Lines 92 to 114: the outcome of the coroutine and what it did. *)
Definition deliver (net : discord) (rec : Row) : result unit * list effect :=
  match resolve_channel net (channel_id rec) with
  | Some ch =>
      match send net ch (message rec) with
      | Return _ => (Return (), [Delivered (id rec) ch (message rec)])
      | Raise _ => (Return (), [SendFailed (id rec) ch])
      end
  | None => (Return (), [])
  end.

(** Where the coroutine [worker] is suspended. *)
Inductive worker_pc : Type :=
| Created (delay : Z)       (* not started yet *)
| Sleeping (until : Z)      (* in [asyncio.sleep(delay)] *)
| AtSelect                  (* about to run the [SELECT] *)
| AtUpdate (rec : Row)      (* [rec] fetched, about to run the [UPDATE] *)
| AtNotify (rec : Row)      (* committed, about to deliver *)
| Exited (r : result unit).

(** Where [load_and_schedule_all] is suspended. *)
Inductive reconciler_pc : Type :=
| AtLoad                    (* about to run the [SELECT] *)
| AtArm (rows : list Row)   (* rows fetched, about to arm them *)
| Loaded.

Inductive task : Type :=
| Worker (row : Row) (pc : worker_pc)
| Reconciler (pc : reconciler_pc).

Record state : Type := {
  db : table;
  clock : Z;
  tasks : list task;
  log : list effect;
  replies : list (Z * bool)
}.

(** [schedule_task(row)]: the new task; it has not run yet. *)
Definition schedule_task (now : Z) (row : Row) : task :=
  Worker row (Created (delay (ends_at row) now)).

(** What the event loop can do next. *)
Inductive event : Type :=
| Tick (d : N)                          (* time passes *)
| Resume (i : nat) (net : discord)      (* task [i] runs to its next [await] *)
| OnReady                               (* [on_ready] starts the reconciler *)
| Cancel (action_id user guild : Z).    (* [/action_cancel] *)

Definition set_task (i : nat) (t : task) (s : state) : state :=
  {| db := db s; clock := clock s; tasks := <[i:=t]> (tasks s);
     log := log s; replies := replies s |}.

(** One step of a worker.  The timer of [asyncio.sleep] is taken to
    expire when the clock the deadlines are read from reaches [until];
    the rounding of the delay to a float and the resolution of the
    loop's own clock, by which a timer may run slightly early, are not
    modelled. *)
Definition resume_worker (i : nat) (net : discord) (row : Row)
    (pc : worker_pc) (s : state) : state :=
  match pc with
  | Created d => set_task i (Worker row (Sleeping (clock s + d))) s
  | Sleeping until =>
      if clock s <? until then s else set_task i (Worker row AtSelect) s
  | AtSelect =>
      match select_pending_by_id (id row) (db s) with
      | None => set_task i (Worker row (Exited (Return ()))) s
      | Some rec => set_task i (Worker row (AtUpdate rec)) s
      end
  | AtUpdate rec =>
      {| db := update_done_by_id (id row) (db s); clock := clock s;
         tasks := <[i:=Worker row (AtNotify rec)]> (tasks s);
         log := log s; replies := replies s |}
  | AtNotify rec =>
      let '(r, effects) := deliver net rec in
      {| db := db s; clock := clock s;
         tasks := <[i:=Worker row (Exited r)]> (tasks s);
         log := log s ++ effects; replies := replies s |}
  | Exited _ => s
  end.

Definition resume_reconciler (i : nat) (pc : reconciler_pc) (s : state)
    : state :=
  match pc with
  | AtLoad => set_task i (Reconciler (AtArm (select_pending (db s)))) s
  | AtArm rows =>
      {| db := db s; clock := clock s;
         tasks := <[i:=Reconciler Loaded]> (tasks s)
                    ++ (schedule_task (clock s) <$> rows);
         log := log s; replies := replies s |}
  | Loaded => s
  end.

Definition step (s : state) (e : event) : state :=
  match e with
  | Tick d =>
      {| db := db s; clock := clock s + Z.of_N d; tasks := tasks s;
         log := log s; replies := replies s |}
  | Resume i net =>
      match tasks s !! i with
      | Some (Worker row pc) => resume_worker i net row pc s
      | Some (Reconciler pc) => resume_reconciler i pc s
      | None => s
      end
  | OnReady =>
      {| db := db s; clock := clock s; tasks := tasks s ++ [Reconciler AtLoad];
         log := log s; replies := replies s |}
  | Cancel action_id user guild =>
      let '(t', ok) := action_cancel action_id user guild (db s) in
      {| db := t'; clock := clock s; tasks := tasks s;
         log := log s; replies := replies s ++ [(action_id, ok)] |}
  end.

Definition run (s : state) (es : list event) : state :=
  foldl step s es.

(** The channel cannot be found, or the send raises. *)
Definition delivery_fails (net : discord) (rec : Row) : Prop :=
  match resolve_channel net (channel_id rec) with
  | None => True
  | Some ch => exists e, send net ch (message rec) = Raise e
  end.

Definition is_delivery (i : Z) (e : effect) : bool :=
  match e with
  | Delivered j _ _ => bool_decide (j = i)
  | SendFailed _ _ => false
  end.

(** The reminders delivered for row [i]. *)
Definition delivered_for (i : Z) (l : list effect) : list effect :=
  filter (fun e => is_delivery i e = true) l.

End Engine.

Import Engine.

(** ** Duration texts *)

(** The texts the specification calls valid durations,
    [{days}d {hours}h {minutes}m {seconds}s]: up to four components in
    that order, each a decimal number and its suffix letter in either
    case.  A component is given by its digits and the letter used. *)
Module Duration.

Definition part : Type := option (string * ascii).

(** The text of a component, in front of [rest]. *)
Definition write (c : part) (rest : string) : string :=
  match c with
  | Some (ds, x) => ds +:+ String x rest
  | None => rest
  end.

Definition well_formed (lower upper : ascii) (c : part) : Prop :=
  match c with
  | Some (ds, x) =>
      ds <> EmptyString /\ all_chars isdigit ds = true
      /\ letter lower upper x = true
  | None => True
  end.

Definition value (c : part) : Z :=
  match c with
  | Some (ds, _) => decimal ds
  | None => 0
  end.

(** The number of a component has no more digits than [int] converts. *)
Definition short (c : part) : Prop :=
  match c with
  | Some (ds, _) => (String.length ds <= MAX_STR_DIGITS)%nat
  | None => True
  end.

(** The group a component fills in. *)
Definition capture (name : string) (c : part) : captures :=
  match c with
  | Some (ds, _) => [(name, ds)]
  | None => []
  end.

(** [s] does not begin with a number followed by the given letter. *)
Definition no_component (lower upper : ascii) (s : string) : bool :=
  negb (starts_with isdigit s)
  || negb (starts_with (letter lower upper) (skip isdigit s)).

Record parts : Type := { days : part; hours : part; mins : part; secs : part }.

Definition valid (d : parts) : Prop :=
  well_formed "d" "D" (days d) /\ well_formed "h" "H" (hours d)
  /\ well_formed "m" "M" (mins d) /\ well_formed "s" "S" (secs d).

Definition within_limit (d : parts) : Prop :=
  short (days d) /\ short (hours d) /\ short (mins d) /\ short (secs d).

(** The components written one after the other. *)
Definition text (d : parts) : string :=
  write (days d) (write (hours d) (write (mins d) (write (secs d) ""))).

Definition seconds (d : parts) : Z :=
  value (days d) * 86400 + value (hours d) * 3600 + value (mins d) * 60
  + value (secs d).

End Duration.

(** ** Two schedules of the event loop *)

Module Scenario.

(** 2025-10-22T12:00:00 *)
Definition T0 : Z := 63896731200000000.

Definition scout : Row :=
  {| id := 1; guild_id := 10; user_id := 20; channel_id := 30;
     action_type := "Scout"; target := "BaseX"; note := None;
     created_at := T0; ends_at := T0 + 45 * 60 * US_PER_SECOND;
     done := false |}.

(** A row that was due five seconds before the process came back. *)
Definition overdue : Row :=
  {| id := 1; guild_id := 10; user_id := 20; channel_id := 30;
     action_type := "Scout"; target := "BaseX"; note := None;
     created_at := T0 - 3600 * US_PER_SECOND;
     ends_at := T0 - 5 * US_PER_SECOND; done := false |}.

Definition online : discord :=
  {| get_channel := fun c => Some c;
     fetch_channel := fun c => Return c;
     send := fun _ _ => Return () |}.

Definition offline : discord :=
  {| get_channel := fun _ => None;
     fetch_channel := fun _ => Raise (Exception "NotFound");
     send := fun _ _ => Raise (Exception "HTTPException") |}.

(** An absolute parser that accepts nothing. *)
Definition reject_all : string -> option datetime := fun _ => None.

(** An absolute parser that, like [dateutil], reads [8h] as eight
    o'clock of the current day, here 2025-10-22. *)
Definition time_of_day : string -> option datetime :=
  fun s =>
    if String.eqb s "8h"
    then Some {| wall := T0 - 4 * 3600 * US_PER_SECOND; utcoffset := None |}
    else None.


(** An absolute parser that reads its input as noon of 2025-10-22 in a
    zone two hours east of UTC. *)
Definition noon_east : string -> option datetime :=
  fun _ => Some {| wall := T0; utcoffset := Some (2 * 3600 * US_PER_SECOND) |}.

(** An absolute parser that reads its input as [datetime.min] in a zone
    five hours east of UTC, as [0001-01-01 00:00+05:00] says. *)
Definition year_one_east : string -> option datetime :=
  fun _ => Some {| wall := 0; utcoffset := Some (5 * 3600 * US_PER_SECOND) |}.

Definition eight_hours : Duration.parts :=
  {| Duration.days := None; Duration.hours := Some ("8", "h"%char);
     Duration.mins := None; Duration.secs := None |}.

(** [/action_start] has stored [scout] and armed its timer. *)
Definition armed : state :=
  {| db := [scout]; clock := T0; tasks := [schedule_task T0 scout];
     log := []; replies := [] |}.

(** The worker starts, sleeps for 45 minutes, wakes and runs its
    [SELECT]. *)
Definition until_selected : list event :=
  [Resume 0 online; Tick 2700000000; Resume 0 online; Resume 0 online].

(** It then runs its [UPDATE] and delivers. *)
Definition update_and_notify : list event :=
  [Resume 0 online; Resume 0 online].

(** The process starts with [overdue] in the table. *)
Definition restarted : state :=
  {| db := [overdue]; clock := T0; tasks := []; log := []; replies := [] |}.

(** [on_ready] runs the reconciler, twice. *)
Definition reconcile_twice : list event :=
  [OnReady; Resume 0 online; Resume 0 online;
   OnReady; Resume 2 online; Resume 2 online].

(** The two workers take turns at every [await]. *)
Definition in_turns : list event :=
  [Resume 1 online; Resume 3 online;     (* start, [sleep(0)] *)
   Resume 1 online; Resume 3 online;     (* wake *)
   Resume 1 online; Resume 3 online;     (* [SELECT] *)
   Resume 1 online; Resume 3 online;     (* [UPDATE] *)
   Resume 1 online; Resume 3 online].    (* deliver *)

(** The two workers take turns up to and including their [UPDATE]. *)
Definition until_both_updated : list event :=
  [Resume 1 online; Resume 3 online;     (* start, [sleep(0)] *)
   Resume 1 online; Resume 3 online;     (* wake *)
   Resume 1 online; Resume 3 online;     (* [SELECT] *)
   Resume 1 online; Resume 3 online].    (* [UPDATE] *)

(** The first worker finishes before the second one starts. *)
Definition one_after_the_other : list event :=
  [Resume 1 online; Resume 1 online; Resume 1 online; Resume 1 online;
   Resume 1 online;
   Resume 3 online; Resume 3 online; Resume 3 online; Resume 3 online;
   Resume 3 online].

End Scenario.

(** ** [/action_start] *)

Module Start.

(** What the command reads from its [discord.Interaction]. *)
Record interaction : Type := { i_guild : Z; i_user : Z; i_channel : Z }.

(** The largest key in the table; rows are never deleted, so this is
    also the largest key the table ever had. *)
Definition last_rowid (t : table) : Z := foldr Z.max 0 (id <$> t).

(** [INSERT INTO actions (...) VALUES (?, ?, ?, ?, ?, ?, ?, ?, 0)] on the
    [AUTOINCREMENT] key, then [SELECT last_insert_rowid()]. *)
Definition insert_action (guild user channel : Z) (action_type target : string)
    (note : option string) (created ends : Z) (t : table) : table * Z :=
  let row_id := last_rowid t + 1 in
  (t ++ [{| id := row_id; guild_id := guild; user_id := user;
            channel_id := channel; action_type := action_type;
            target := target; note := note; created_at := created;
            ends_at := ends; done := false |}],
   row_id).

Inductive reply : Type :=
| ParseFailed (msg : string)                (* the text of the [ValueError] *)
| TimerSet (row_id ends channel : Z).       (* "Timer set (ID ...)" *)

Section ActionStart.

Variable dtparse : string -> option datetime.

(** The body of [action_start], run without another task in between:
    parse, insert, arm, reply.  Only [ValueError] is caught. *)
Definition action_start (ia : interaction) (action_type target duration : string)
    (channel : option Z) (note : option string) (s : state)
    : result (state * reply) :=
  let now := clock s in
  match parse_duration_or_time dtparse duration now with
  | Raise (ValueError msg) => Return (s, ParseFailed msg)
  | Raise e => Raise e
  | Return ends =>
      let channel_id := default (i_channel ia) channel in
      let '(t', row_id) :=
        insert_action (i_guild ia) (i_user ia) channel_id action_type target
          note now ends (db s) in
      let row :=
        {| id := row_id; guild_id := i_guild ia; user_id := i_user ia;
           channel_id := channel_id; action_type := action_type;
           target := target; note := note; created_at := now;
           ends_at := ends; done := false |} in
      Return ({| db := t'; clock := clock s;
                 tasks := tasks s ++ [schedule_task now row];
                 log := log s; replies := replies s |},
              TimerSet row_id ends channel_id)
  end.

End ActionStart.

End Start.

(** ** What the event loop keeps *)

Module Keeps.

(** A row is as it was, or its [done] went from 0 to 1. *)
Definition marked (r r' : Row) : Prop :=
  r' = r \/ (done r = false /\ r' = set_done r).

(** Every row with key [j] is done. *)
Definition settled (j : Z) (t : table) : Prop :=
  forall r, r ∈ t -> id r = j -> done r = true.

(** A worker that has fetched a row with key [j] and has not returned. *)
Definition in_flight (j : Z) (x : task) : Prop :=
  match x with
  | Worker _ (AtUpdate rec) | Worker _ (AtNotify rec) => id rec = j
  | _ => False
  end.

Definition quiet (j : Z) (ts : list task) : Prop :=
  forall x, x ∈ ts -> ~ in_flight j x.

Definition finished (x : task) : bool :=
  match x with
  | Worker _ (Exited _) => true
  | _ => false
  end.

(** The workers that have returned. *)
Definition count_finished (ts : list task) : nat :=
  length (filter (fun x => finished x = true) ts).

End Keeps.

(** ** Duration texts with white space between the components *)

Module Separated.

Record gaps : Type := { gap1 : string; gap2 : string; gap3 : string }.

Definition blank (w : gaps) : Prop :=
  all_chars isspace (gap1 w) = true /\ all_chars isspace (gap2 w) = true
  /\ all_chars isspace (gap3 w) = true.

Definition text (d : Duration.parts) (w : gaps) : string :=
  Duration.write (Duration.days d)
    (gap1 w +:+ Duration.write (Duration.hours d)
       (gap2 w +:+ Duration.write (Duration.mins d)
          (gap3 w +:+ Duration.write (Duration.secs d) ""))).

End Separated.

(** * Properties *)

(** ** Strings *)

Section StringFacts.

Implicit Types (s t : string) (c : ascii) (p : ascii -> bool).

Lemma isspace_space : isspace " " = true.
Proof. reflexivity. Qed.

Lemma not_space_char c : isspace c = false -> Ascii.eqb c " " = false.
Proof.
  intros H. destruct (Ascii.eqb_spec c " ") as [->|]; [|reflexivity].
  discriminate.
Qed.

Lemma digit_not_space c : isdigit c = true -> isspace c = false.
Proof.
  unfold isdigit, isspace. generalize (ord c). intros n H.
  apply andb_true_iff in H as [H1 H2]. apply N.leb_le in H1, H2.
  rewrite !orb_false_iff, !andb_false_iff, !N.leb_gt, !N.eqb_neq. lia.
Qed.

Lemma remove_spaces_cons c t :
  remove_spaces (String c t)
  = if Ascii.eqb c " " then remove_spaces t else String c (remove_spaces t).
Proof. reflexivity. Qed.

Lemma remove_spaces_idem s : remove_spaces (remove_spaces s) = remove_spaces s.
Proof.
  induction s as [|c t IH]; [reflexivity|]. simpl.
  destruct (Ascii.eqb c " ") eqn:E; [assumption|].
  simpl. by rewrite E, IH.
Qed.

Lemma all_space_remove_spaces s :
  all_chars isspace (remove_spaces s) = all_chars isspace s.
Proof.
  induction s as [|c t IH]; [reflexivity|]. simpl.
  destruct (Ascii.eqb_spec c " ") as [->|Hc]; simpl; by rewrite IH.
Qed.

Lemma rstrip_empty s : rstrip s = "" <-> all_chars isspace s = true.
Proof.
  induction s as [|c t IH]; [done|]. simpl.
  destruct (rstrip t) eqn:E.
  - destruct (isspace c); simpl; [tauto|]. split; discriminate.
  - split; [discriminate|]. intros H. apply andb_true_iff in H as [_ H].
    apply IH in H. discriminate.
Qed.

(** Removing the spaces first makes no difference to what is left of a
    stripped string once its spaces are removed. *)
Lemma lstrip_remove_spaces s :
  remove_spaces (lstrip (remove_spaces s)) = remove_spaces (lstrip s).
Proof.
  induction s as [|c t IH]; [reflexivity|]. simpl.
  destruct (Ascii.eqb_spec c " ") as [->|Hc].
  - rewrite isspace_space. exact IH.
  - simpl. destruct (isspace c) eqn:Ec; [exact IH|].
    simpl. rewrite (not_space_char c Ec). by rewrite remove_spaces_idem.
Qed.

Lemma rstrip_remove_spaces s :
  remove_spaces (rstrip (remove_spaces s)) = remove_spaces (rstrip s).
Proof.
  induction s as [|c t IH]; [reflexivity|]. simpl.
  destruct (Ascii.eqb_spec c " ") as [->|Hc].
  - rewrite IH, isspace_space. destruct (rstrip t) eqn:E; [reflexivity|].
    reflexivity.
  - simpl.
    destruct (rstrip t) as [|c1 t1] eqn:E1;
      destruct (rstrip (remove_spaces t)) as [|c2 t2] eqn:E2.
    + reflexivity.
    + apply rstrip_empty in E1. rewrite <- all_space_remove_spaces in E1.
      apply rstrip_empty in E1. congruence.
    + apply rstrip_empty in E2. rewrite all_space_remove_spaces in E2.
      apply rstrip_empty in E2. congruence.
    + rewrite (remove_spaces_cons c (String c2 t2)).
      rewrite (remove_spaces_cons c (String c1 t1)).
      destruct (Ascii.eqb c " "); by rewrite IH.
Qed.

Lemma strip_remove_spaces s :
  remove_spaces (strip (remove_spaces s)) = remove_spaces (strip s).
Proof.
  unfold strip.
  rewrite <- (rstrip_remove_spaces (lstrip (remove_spaces s))).
  rewrite lstrip_remove_spaces. apply rstrip_remove_spaces.
Qed.

(** A string without white space is left alone. *)
Lemma no_space_lstrip s : no_space s = true -> lstrip s = s.
Proof.
  destruct s as [|c t]; [reflexivity|]. unfold no_space. simpl.
  intros H. apply andb_true_iff in H as [H _].
  apply negb_true_iff in H. by rewrite H.
Qed.

Lemma no_space_rstrip s : no_space s = true -> rstrip s = s.
Proof.
  unfold no_space. induction s as [|c t IH]; [reflexivity|]. simpl.
  intros H. apply andb_true_iff in H as [Hc Ht].
  apply negb_true_iff in Hc. rewrite (IH Ht), Hc.
  by destruct t.
Qed.

Lemma no_space_strip s : no_space s = true -> strip s = s.
Proof.
  intros H. unfold strip. rewrite (no_space_lstrip s H). by apply no_space_rstrip.
Qed.

Lemma no_space_remove_spaces s : no_space s = true -> remove_spaces s = s.
Proof.
  unfold no_space. induction s as [|c t IH]; [reflexivity|]. simpl.
  intros H. apply andb_true_iff in H as [Hc Ht].
  apply negb_true_iff in Hc. by rewrite (not_space_char c Hc), (IH Ht).
Qed.

Lemma remove_spaces_no_space s :
  no_space (remove_spaces s) = true -> remove_spaces (strip s) = remove_spaces s.
Proof.
  intros H. rewrite <- strip_remove_spaces.
  rewrite (no_space_strip _ H). apply remove_spaces_idem.
Qed.

Lemma all_space_strip s : all_chars isspace s = true -> strip s = "".
Proof.
  intros H. unfold strip. apply rstrip_empty.
  induction s as [|c t IH]; [reflexivity|]. simpl in *.
  apply andb_true_iff in H as [Hc Ht]. rewrite Hc. by apply IH.
Qed.

End StringFacts.

(** ** The store *)

Section StoreFacts.

Implicit Types (t : table) (r : Row) (i u g : Z).

#[global] Instance ends_before_total : Total ends_before.
Proof. intros a b. unfold ends_before. lia. Qed.

#[global] Instance ends_before_trans : Transitive ends_before.
Proof. intros a b c. unfold ends_before. lia. Qed.

Lemma set_done_id r : id (set_done r) = id r.
Proof. reflexivity. Qed.

Lemma set_done_done r : done (set_done r) = true.
Proof. reflexivity. Qed.

Lemma set_done_idem r : done r = true -> set_done r = r.
Proof. destruct r; simpl; intros ->; reflexivity. Qed.

(** An update that matches no row leaves the table as it is. *)
Lemma update_none (P : Row -> Prop) `{!forall r, Decision (P r)} t :
  filter P t = [] -> ((fun r => if decide (P r) then set_done r else r) <$> t) = t.
Proof.
  induction t as [|r t IH]; [reflexivity|].
  rewrite filter_cons. destruct (decide (P r)) as [HP|HP]; [discriminate|].
  intros Hnil. rewrite fmap_cons, IH by assumption.
  destruct (decide (P r)); [contradiction|reflexivity].
Qed.

(** After [SET done=1 WHERE ... AND done=0] no row matches any more. *)
Lemma update_exhausts (P : Row -> Prop) `{!forall r, Decision (P r)} t :
  (forall r, P r -> done r = false) ->
  filter P ((fun r => if decide (P r) then set_done r else r) <$> t) = [].
Proof.
  intros Hpending.
  induction t as [|r t IH]; [reflexivity|].
  rewrite fmap_cons, filter_cons, IH.
  destruct (decide (P r)) as [HP|HP].
  - rewrite decide_False; [reflexivity|].
    intros HP'. apply Hpending in HP'. discriminate.
  - rewrite decide_False; [reflexivity|assumption].
Qed.

Lemma rowcount_pos (P : Row -> Prop) `{!forall r, Decision (P r)} t :
  negb (Nat.eqb (length (filter P t)) 0) = true <-> exists r, r ∈ t /\ P r.
Proof.
  split.
  - destruct (filter P t) as [|r l] eqn:E; [discriminate|]. intros _.
    exists r. apply and_comm, (list_elem_of_filter P). rewrite E. left.
  - intros (r & Hin & HP).
    assert (Hr : r ∈ filter P t) by (apply list_elem_of_filter; auto).
    destruct (filter P t); [inversion Hr|reflexivity].
Qed.

End StoreFacts.

(** C5: the delay [schedule_task] computes is [max(0, ends_at - now)]; it
    is never negative, and it is zero exactly when [ends_at] is not
    after [now], so that an overdue timer fires at once. *)
Theorem schedule_task_delay (row : Row) (now : Z) :
  schedule_task now row = Worker row (Created (Z.max 0 (ends_at row - now)))
  /\ 0 <= delay (ends_at row) now
  /\ (delay (ends_at row) now = 0 <-> ends_at row <= now).
Proof.
  unfold schedule_task, delay.
  destruct (Z.ltb_spec (ends_at row - now) 0); repeat split; try lia.
  - f_equal. f_equal. lia.
  - f_equal. f_equal. lia.
Qed.

(** C6: [/action_cancel] answers "canceled" exactly when the table has a
    row with that id, guild and user whose [done] is 0; it then sets
    [done] on the rows its [WHERE] clause selects, and otherwise leaves
    the table as it is; a second cancel with the same arguments answers
    "could not cancel"; the event loop runs the whole update as one
    step. *)
Theorem action_cancel_owned_pending (i u g : Z) (t : table) :
  (snd (action_cancel i u g t) = true <->
     exists r, r ∈ t /\ id r = i /\ guild_id r = g /\ user_id r = u
               /\ done r = false)
  /\ fst (action_cancel i u g t) =
     (if snd (action_cancel i u g t)
      then (fun r => if decide (id r = i /\ user_id r = u /\ guild_id r = g
                                /\ done r = false)
                     then set_done r else r) <$> t
      else t)
  /\ snd (action_cancel i u g (fst (action_cancel i u g t))) = false
  /\ forall s : state,
       step s (Cancel i u g) =
       {| db := fst (action_cancel i u g (db s)); clock := clock s;
          tasks := tasks s; log := log s;
          replies := replies s ++ [(i, snd (action_cancel i u g (db s)))] |}.
Proof.
  unfold action_cancel, update_cancel, update_set_done. simpl.
  repeat split.
  - intros H. apply rowcount_pos in H as (r & Hin & ? & ? & ? & ?). eauto 10.
  - intros (r & Hin & ? & ? & ? & ?). apply rowcount_pos. eauto 10.
  - destruct (negb _) eqn:E; [reflexivity|].
    apply update_none. apply negb_false_iff, Nat.eqb_eq in E.
    destruct (filter _ t); [reflexivity|discriminate].
  - rewrite update_exhausts; [reflexivity|]. tauto.
Qed.

(** C7: the listing query returns exactly the rows of the guild and user
    with [done] 0, in ascending order of [ends_at]; [/action_list]
    answers "no pending actions" when there is none, and the rows in
    that order otherwise. *)
Theorem action_list_pending_sorted (g u : Z) (t : table) :
  select_pending_for g u t
    ≡ₚ filter (fun r => guild_id r = g /\ user_id r = u /\ done r = false) t
  /\ StronglySorted ends_before (select_pending_for g u t)
  /\ (forall r, r ∈ select_pending_for g u t <->
                r ∈ t /\ guild_id r = g /\ user_id r = u /\ done r = false)
  /\ action_list g u t =
     match filter (fun r => guild_id r = g /\ user_id r = u /\ done r = false) t
     with
     | [] => NoPending
     | _ => Lines (select_pending_for g u t)
     end.
Proof.
  unfold action_list, select_pending_for.
  set (mine := filter _ t).
  assert (Hperm : merge_sort ends_before mine ≡ₚ mine)
    by apply merge_sort_Permutation.
  split; [exact Hperm|]. split; [|split].
  - apply StronglySorted_merge_sort; apply _.
  - intros r. rewrite Hperm. subst mine. rewrite list_elem_of_filter. tauto.
  - destruct mine as [|r l] eqn:E.
    + reflexivity.
    + destruct (merge_sort ends_before (r :: l)) eqn:E'; [|reflexivity].
      symmetry in Hperm. apply Permutation_nil_r in Hperm. discriminate.
Qed.

(** ** The timer engine *)

Section EngineFacts.

Implicit Types (s : state) (e : event) (es : list event) (i : nat).

Lemma run_app s es es' : run (run s es) es' = run s (es ++ es').
Proof. unfold run. by rewrite foldl_app. Qed.

Lemma run_snoc s es e : run s (es ++ [e]) = step (run s es) e.
Proof. unfold run. by rewrite foldl_app. Qed.

(** No statement of the bot clears [done]. *)
Lemma flag_update (P : Row -> Prop) `{!forall r, Decision (P r)} (j : Z) t :
  flag j t = Some true ->
  flag j ((fun r => if decide (P r) then set_done r else r) <$> t) = Some true.
Proof.
  unfold flag. induction t as [|r t IH]; [discriminate|].
  rewrite fmap_cons, !filter_cons.
  assert (Hid : id (if decide (P r) then set_done r else r) = id r)
    by (destruct (decide (P r)); reflexivity).
  rewrite Hid. destruct (decide (id r = j)); [|exact IH].
  simpl. intros [= Hd]. destruct (decide (P r)); [reflexivity|by rewrite Hd].
Qed.

Lemma step_keeps_done s e (j : Z) :
  flag j (db s) = Some true -> flag j (db (step s e)) = Some true.
Proof.
  intros Hj. destruct e as [d|i net| |a u g]; simpl; try assumption.
  - destruct (tasks s !! i) as [[row pc|pc]|]; [| |assumption].
    + destruct pc; simpl; try assumption.
      * destruct (clock s <? until); assumption.
      * destruct (select_pending_by_id _ _); assumption.
      * by apply flag_update.
      * destruct (deliver net rec); assumption.
    + destruct pc; assumption.
  - unfold action_cancel, update_cancel, update_set_done. simpl.
    by apply flag_update.
Qed.

Lemma run_keeps_done s es (j : Z) :
  flag j (db s) = Some true -> flag j (db (run s es)) = Some true.
Proof.
  revert s. induction es as [|e es IH]; intros s Hj; [assumption|].
  apply IH. by apply step_keeps_done.
Qed.

(** A coroutine that has returned is not resumed, whatever else runs. *)
Lemma step_keeps_exited s e i row r :
  tasks s !! i = Some (Worker row (Exited r)) ->
  tasks (step s e) !! i = Some (Worker row (Exited r)).
Proof.
  intros Hi. destruct e as [d|j net| |a u g]; simpl; try assumption.
  - destruct (decide (j = i)) as [->|Hne].
    { rewrite Hi. simpl. assumption. }
    destruct (tasks s !! j) as [[row' pc|pc]|] eqn:Hj; [| |assumption].
    + destruct pc; simpl; try assumption;
        try (rewrite list_lookup_insert_ne by assumption; assumption).
      * destruct (clock s <? until); simpl; [assumption|].
        by rewrite list_lookup_insert_ne.
      * destruct (select_pending_by_id _ _); simpl;
          by rewrite list_lookup_insert_ne.
      * destruct (deliver net rec). simpl. by rewrite list_lookup_insert_ne.
    + destruct pc; simpl; try assumption.
      * by rewrite list_lookup_insert_ne.
      * rewrite lookup_app_l.
        -- by rewrite list_lookup_insert_ne.
        -- rewrite length_insert. by eapply lookup_lt_Some.
  - rewrite lookup_app_l; [assumption|by eapply lookup_lt_Some].
Qed.

Lemma run_keeps_exited s es i row r :
  tasks s !! i = Some (Worker row (Exited r)) ->
  tasks (run s es) !! i = Some (Worker row (Exited r)).
Proof.
  revert s. induction es as [|e es IH]; intros s Hi; [assumption|].
  apply IH. by apply step_keeps_exited.
Qed.

Lemma resume_exited s i net row r :
  tasks s !! i = Some (Worker row (Exited r)) -> step s (Resume i net) = s.
Proof. intros Hi. simpl. by rewrite Hi. Qed.

End EngineFacts.

(** A failed delivery, for the worker it happens to: when the delivery
    fails after the worker has marked the row, the coroutine still
    returns normally; the step changes no row and delivers nothing; from
    then on, whatever the event loop runs, the task stays returned,
    resuming it does nothing, and the [done] flag of its row stays
    set. *)
Theorem delivery_failure_swallowed
    (s : state) (i : nat) (net : discord) (row rec : Row) :
  tasks s !! i = Some (Worker row (AtNotify rec)) ->
  delivery_fails net rec ->
  flag (id row) (db s) = Some true ->
  fst (deliver net rec) = Return ()
  /\ tasks (step s (Resume i net)) !! i = Some (Worker row (Exited (Return ())))
  /\ db (step s (Resume i net)) = db s
  /\ (forall j, delivered_for j (log (step s (Resume i net)))
                = delivered_for j (log s))
  /\ forall es,
       tasks (run (step s (Resume i net)) es) !! i
         = Some (Worker row (Exited (Return ())))
       /\ (forall net', step (run (step s (Resume i net)) es) (Resume i net')
                        = run (step s (Resume i net)) es)
       /\ flag (id row) (db (run (step s (Resume i net)) es)) = Some true.
Proof.
  intros Hi Hfail Hdone.
  assert (Hd : exists effs, deliver net rec = (Return (), effs)
                            /\ forall j, delivered_for j effs = []).
  { unfold delivery_fails in Hfail. unfold deliver.
    destruct (resolve_channel net (channel_id rec)) as [ch|].
    - destruct Hfail as [e ->]. eexists; split; [reflexivity|].
      intros j. reflexivity.
    - eexists; split; [reflexivity|]. intros j. reflexivity. }
  destruct Hd as (effs & Hd & Hnone).
  assert (Hexit : tasks (step s (Resume i net)) !! i
                  = Some (Worker row (Exited (Return ())))).
  { simpl. rewrite Hi. simpl. rewrite Hd. simpl.
    apply list_lookup_insert_eq. by eapply lookup_lt_Some. }
  split; [by rewrite Hd|]. split; [exact Hexit|]. split; [|split].
  - simpl. rewrite Hi. simpl. by rewrite Hd.
  - intros j. simpl. rewrite Hi. simpl. rewrite Hd. simpl.
    unfold delivered_for in *. by rewrite filter_app, Hnone, app_nil_r.
  - intros es. split; [|split].
    + by apply run_keeps_exited.
    + intros net'. eapply resume_exited. by apply run_keeps_exited.
    + apply run_keeps_done, step_keeps_done, Hdone.
Qed.

Lemma delivery_failure_swallowed_witness :
  let s := run Scenario.armed
             (Scenario.until_selected ++ [Resume 0 Scenario.online]) in
  tasks s !! 0%nat = Some (Worker Scenario.scout (AtNotify Scenario.scout))
  /\ delivery_fails Scenario.offline Scenario.scout
  /\ flag 1 (db s) = Some true
  /\ tasks (step s (Resume 0 Scenario.offline)) !! 0%nat
     = Some (Worker Scenario.scout (Exited (Return ())))
  /\ log (step s (Resume 0 Scenario.offline)) = [].
Proof.
  intros s.
  assert (H1 : tasks s !! 0%nat
               = Some (Worker Scenario.scout (AtNotify Scenario.scout)))
    by reflexivity.
  assert (H2 : delivery_fails Scenario.offline Scenario.scout) by exact I.
  assert (H3 : flag (id Scenario.scout) (db s) = Some true) by reflexivity.
  split; [exact H1|]. split; [exact H2|]. split; [exact H3|].
  split; [|reflexivity].
  exact (proj1 (proj2 (delivery_failure_swallowed s 0 Scenario.offline
                         Scenario.scout Scenario.scout H1 H2 H3))).
Defined.

(** C9: a failed delivery followed by a second reminder.  The
    reconciler has armed two workers for the one overdue row and both
    have passed their [SELECT] and [UPDATE].  The delivery of the first
    fails, and the failure is swallowed: the worker returns normally,
    nothing is delivered and [done] stays set.  The second worker then
    delivers a reminder for the same row. *)
Theorem failed_delivery_then_second_reminder :
  let fetched :=
    run (run Scenario.restarted Scenario.reconcile_twice)
      Scenario.until_both_updated in
  let failed := step fetched (Resume 1 Scenario.offline) in
  tasks fetched !! 1%nat
    = Some (Worker Scenario.overdue (AtNotify Scenario.overdue))
  /\ tasks fetched !! 3%nat
     = Some (Worker Scenario.overdue (AtNotify Scenario.overdue))
  /\ flag 1 (db fetched) = Some true
  /\ delivery_fails Scenario.offline Scenario.overdue
  /\ tasks failed !! 1%nat
     = Some (Worker Scenario.overdue (Exited (Return ())))
  /\ log failed = []
  /\ flag 1 (db failed) = Some true
  /\ log (step failed (Resume 3 Scenario.online))
     = [Delivered 1 30 (message Scenario.overdue)].
Proof. vm_compute. repeat split. Qed.

(** C1: a cancel that lands between the worker's [SELECT] and its
    [UPDATE].  The cancel takes effect and sets [done]; the worker's
    [UPDATE], which does not test [done], then runs on a row that is
    already marked, changes nothing, and the worker still delivers the
    reminder. *)
Theorem cancel_between_select_and_update :
  let selected := run Scenario.armed Scenario.until_selected in
  let canceled := step selected (Cancel 1 20 10) in
  let fired := run canceled Scenario.update_and_notify in
  tasks selected !! 0%nat
    = Some (Worker Scenario.scout (AtUpdate Scenario.scout))
  /\ replies canceled = [(1, true)]
  /\ flag 1 (db canceled) = Some true
  /\ db (step canceled (Resume 0 Scenario.online)) = db canceled
  /\ log fired = [Delivered 1 30 (message Scenario.scout)].
Proof. vm_compute. repeat split. Qed.

(** C2: the reconciler runs twice over a table with one overdue row and
    arms two workers with delay zero.  When the workers take turns at
    their [await]s both pass the [SELECT] before either runs its
    [UPDATE], and two reminders are delivered; only when one worker
    finishes before the other starts is there a single reminder. *)
Theorem reconcile_twice_double_fire :
  let armed := run Scenario.restarted Scenario.reconcile_twice in
  tasks armed = [Reconciler Loaded; Worker Scenario.overdue (Created 0);
                 Reconciler Loaded; Worker Scenario.overdue (Created 0)]
  /\ clock (run armed Scenario.in_turns) = clock Scenario.restarted
  /\ length (delivered_for 1 (log (run armed Scenario.in_turns))) = 2%nat
  /\ flag 1 (db (run armed Scenario.in_turns)) = Some true
  /\ length (delivered_for 1 (log (run armed Scenario.one_after_the_other)))
     = 1%nat.
Proof. vm_compute. repeat split. Qed.

(** ** The matcher on duration texts *)

Section MatcherFacts.

Implicit Types (s t : string) (c : ascii) (p : ascii -> bool)
  (caps : captures) (k : cont).

Lemma length_append s t :
  String.length (s +:+ t) = (String.length s + String.length t)%nat.
Proof. induction s as [|c s IH]; simpl; [reflexivity|by rewrite IH]. Qed.

Lemma consumed_append s t : consumed (s +:+ t) t = s.
Proof.
  unfold consumed. induction s as [|c s IH]; simpl.
  - rewrite Nat.sub_diag. by destruct t.
  - rewrite length_append in *.
    replace (S (String.length s + String.length t) - String.length t)%nat
      with (S (String.length s + String.length t - String.length t))%nat
      by lia.
    simpl. by rewrite IH.
Qed.

Lemma star_stop p s caps k :
  starts_with p s = false -> star p s caps k = k s caps.
Proof. destruct s as [|c t]; simpl; [reflexivity|]. by intros ->. Qed.

(** When the rest of the pattern cannot start with a character of the
    class, giving characters back never helps. *)
Lemma star_greedy p s caps k :
  (forall x t caps', p x = true -> k (String x t) caps' = None) ->
  star p s caps k = k (skip p s) caps.
Proof.
  intros Hk. induction s as [|c t IH]; simpl; [reflexivity|].
  destruct (p c) eqn:Ec; [|reflexivity]. rewrite IH.
  destruct (k (skip p t) caps); [reflexivity|]. by apply Hk.
Qed.

Lemma skip_append p s c t :
  all_chars p s = true -> p c = false -> skip p (s +:+ String c t) = String c t.
Proof.
  intros Hs Hc. induction s as [|x s IH]; simpl in *.
  - by rewrite Hc.
  - apply andb_true_iff in Hs as [Hx Hs]. rewrite Hx. by apply IH.
Qed.

Lemma letter_not_digit lo up c :
  isdigit lo = false -> isdigit up = false ->
  letter lo up c = true -> isdigit c = false.
Proof.
  intros Hlo Hup H. unfold letter in H.
  apply orb_true_iff in H as [H|H]; apply Ascii.eqb_eq in H; by subst.
Qed.

Lemma digit_not_letter lo up c :
  isdigit lo = false -> isdigit up = false ->
  isdigit c = true -> letter lo up c = false.
Proof.
  intros Hlo Hup H. destruct (letter lo up c) eqn:E; [|reflexivity].
  apply (letter_not_digit lo up c Hlo Hup) in E. congruence.
Qed.

(** A number and the letter are in front: the group is filled in, and
    the component is only given up when the rest fails. *)
Lemma component_present name lo up ds x rest caps k :
  isdigit lo = false -> isdigit up = false ->
  ds <> "" -> all_chars isdigit ds = true -> letter lo up x = true ->
  rmatch (component name lo up) (ds +:+ String x rest) caps k =
  match k rest ((name, ds) :: caps) with
  | Some m => Some m
  | None => k (ds +:+ String x rest) caps
  end.
Proof.
  intros Hlo Hup Hne Hds Hx.
  destruct ds as [|d0 ds']; [done|]. simpl in Hds.
  apply andb_true_iff in Hds as [Hd0 Hds'].
  assert (Hxd : isdigit x = false) by exact (letter_not_digit lo up x Hlo Hup Hx).
  unfold component.
  change (String d0 ds' +:+ String x rest)
    with (String d0 (ds' +:+ String x rest)).
  cbn [rmatch]. rewrite Hd0. rewrite star_greedy.
  - rewrite (skip_append isdigit ds' x rest Hds' Hxd). rewrite Hx.
    change (String d0 (ds' +:+ String x rest))
      with (String d0 ds' +:+ String x rest).
    by rewrite consumed_append.
  - intros y t caps' Hy. by rewrite (digit_not_letter lo up y).
Qed.

(** No number followed by the letter is in front: the component is
    skipped. *)
Lemma component_absent name lo up s caps k :
  isdigit lo = false -> isdigit up = false ->
  Duration.no_component lo up s = true ->
  rmatch (component name lo up) s caps k = k s caps.
Proof.
  intros Hlo Hup Hno. unfold component. cbn [rmatch].
  destruct s as [|c t]; [reflexivity|].
  destruct (isdigit c) eqn:Ec; [|reflexivity].
  unfold Duration.no_component in Hno. simpl in Hno. rewrite Ec in Hno.
  simpl in Hno. apply negb_true_iff in Hno.
  rewrite star_greedy.
  - destruct (skip isdigit t) as [|y t']; [reflexivity|].
    simpl in Hno. by rewrite Hno.
  - intros y t' caps' Hy. by rewrite (digit_not_letter lo up y).
Qed.

End MatcherFacts.

Section DurationFacts.

Import Duration.

Implicit Types (c : part) (d : parts) (rest : string) (caps : captures).

Lemma write_no_component lo up lo' up' c rest :
  isdigit lo' = false -> isdigit up' = false ->
  (forall x, letter lo' up' x = true -> letter lo up x = false) ->
  well_formed lo' up' c ->
  no_component lo up rest = true ->
  no_component lo up (write c rest) = true.
Proof.
  intros Hlo Hup Hdisj Hwf Hrest.
  destruct c as [[ds x]|]; [|exact Hrest].
  destruct Hwf as (_ & Hds & Hx). unfold no_component. simpl.
  rewrite (skip_append isdigit ds x rest Hds
             (letter_not_digit lo' up' x Hlo Hup Hx)).
  simpl. rewrite (Hdisj x Hx). apply orb_true_r.
Qed.

Lemma write_no_space lo up c rest :
  isdigit lo = false -> isdigit up = false ->
  isspace lo = false -> isspace up = false ->
  well_formed lo up c ->
  no_space rest = true -> no_space (write c rest) = true.
Proof.
  intros Hlo Hup Hlo' Hup' Hwf Hrest.
  destruct c as [[ds x]|]; [|exact Hrest].
  destruct Hwf as (_ & Hds & Hx). simpl. unfold no_space in *.
  clear -Hds Hx Hrest Hlo' Hup'.
  induction ds as [|y ds IH]; simpl in *.
  - rewrite Hrest, andb_true_r.
    unfold letter in Hx. apply orb_true_iff in Hx as [Hx|Hx];
      apply Ascii.eqb_eq in Hx; subst; by apply negb_true_iff.
  - apply andb_true_iff in Hds as [Hy Hds].
    rewrite (digit_not_space y Hy). simpl. by apply IH.
Qed.

Lemma no_space_starts rest :
  no_space rest = true -> starts_with isspace rest = false.
Proof.
  destruct rest as [|c t]; [reflexivity|]. unfold no_space. simpl.
  intros H. apply andb_true_iff in H as [H _]. by apply negb_true_iff.
Qed.

(** One component of the pattern, the white space behind it and the
    rest [r] of the pattern. *)
Lemma stage name lo up c r rest caps m :
  isdigit lo = false -> isdigit up = false ->
  well_formed lo up c ->
  no_component lo up rest = true ->
  starts_with isspace rest = false ->
  rmatch r rest (capture name c ++ caps) at_end = Some m ->
  rmatch (Seq (component name lo up) (Seq (Star isspace) r))
    (write c rest) caps at_end = Some m.
Proof.
  intros Hlo Hup Hwf Hno Hsp Hr.
  change (rmatch (component name lo up) (write c rest) caps
            (fun s1 caps1 =>
               star isspace s1 caps1
                 (fun s2 caps2 => rmatch r s2 caps2 at_end)) = Some m).
  destruct c as [[ds x]|]; cbn [write capture well_formed app] in *.
  - destruct Hwf as (Hne & Hds & Hx).
    rewrite component_present by assumption.
    rewrite (star_stop isspace rest _ _ Hsp). by rewrite Hr.
  - rewrite component_absent by assumption.
    by rewrite (star_stop isspace rest _ _ Hsp).
Qed.

Lemma last_stage name lo up c caps :
  isdigit lo = false -> isdigit up = false ->
  well_formed lo up c ->
  rmatch (component name lo up) (write c "") caps at_end
  = Some (capture name c ++ caps).
Proof.
  intros Hlo Hup Hwf.
  destruct c as [[ds x]|]; cbn [write capture well_formed app] in *.
  - destruct Hwf as (Hne & Hds & Hx).
    by rewrite component_present.
  - by rewrite component_absent.
Qed.

Ltac letters :=
  let x := fresh "x" in let H := fresh "H" in
  intros x H; unfold letter in H;
  apply orb_true_iff in H as [H|H]; apply Ascii.eqb_eq in H; subst;
  reflexivity.

(** [DUR_RE] matches a valid duration text and fills in the groups of
    the components that are present. *)
Lemma fullmatch_text d :
  valid d ->
  fullmatch DUR_RE (text d)
  = Some (capture "secs" (secs d) ++ capture "mins" (mins d)
          ++ capture "hours" (hours d) ++ capture "days" (days d) ++ []).
Proof.
  intros (Hd & Hh & Hm & Hs). unfold fullmatch, DUR_RE, text.
  assert (Ns : no_space (write (secs d) "") = true)
    by (by apply (write_no_space "s" "S")).
  assert (Nm : no_space (write (mins d) (write (secs d) "")) = true)
    by (by apply (write_no_space "m" "M")).
  assert (Nh : no_space (write (hours d) (write (mins d) (write (secs d) "")))
               = true)
    by (by apply (write_no_space "h" "H")).
  apply stage; try done.
  { apply (write_no_component _ _ "h" "H"); try done; [letters|].
    apply (write_no_component _ _ "m" "M"); try done; [letters|].
    apply (write_no_component _ _ "s" "S"); try done. letters. }
  { by apply no_space_starts. }
  apply stage; try done.
  { apply (write_no_component _ _ "m" "M"); try done; [letters|].
    apply (write_no_component _ _ "s" "S"); try done. letters. }
  { by apply no_space_starts. }
  apply stage; try done.
  { apply (write_no_component _ _ "s" "S"); try done. letters. }
  { by apply no_space_starts. }
  by rewrite last_stage.
Qed.

Lemma text_no_space d : valid d -> no_space (text d) = true.
Proof.
  intros (Hd & Hh & Hm & Hs). unfold text.
  apply (write_no_space "d" "D"); try done.
  apply (write_no_space "h" "H"); try done.
  apply (write_no_space "m" "M"); try done.
  by apply (write_no_space "s" "S").
Qed.

Lemma int_short (s : string) :
  (String.length s <= MAX_STR_DIGITS)%nat -> int s = Return (decimal s).
Proof.
  intros H. unfold int.
  destruct (Nat.ltb_spec MAX_STR_DIGITS (String.length s)); [lia|reflexivity].
Qed.

Lemma int_long (s : string) :
  (MAX_STR_DIGITS < String.length s)%nat ->
  int s = Raise (ValueError (exceeds_limit (String.length s))).
Proof.
  intros H. unfold int.
  destruct (Nat.ltb_spec MAX_STR_DIGITS (String.length s)); [reflexivity|lia].
Qed.

(** What [int(m.group(name) or 0)] gives for the group of a component. *)
Lemma group_or_0_component c :
  match c with Some (ds, _) => ds <> "" | None => True end ->
  short c ->
  match c with
  | Some (String _ _ as v, _) => int v
  | _ => Return 0
  end = Return (value c).
Proof.
  destruct c as [[[|x ds] y]|]; [by intros []|..|done].
  intros _ Hshort. by apply int_short.
Qed.

(** The groups read back as the values of the components, when none of
    them is longer than [int] converts. *)
Lemma groups_text d :
  valid d -> within_limit d ->
  let m := capture "secs" (secs d) ++ capture "mins" (mins d)
           ++ capture "hours" (hours d) ++ capture "days" (days d) ++ [] in
  group_or_0 m "days" = Return (value (days d))
  /\ group_or_0 m "hours" = Return (value (hours d))
  /\ group_or_0 m "mins" = Return (value (mins d))
  /\ group_or_0 m "secs" = Return (value (secs d)).
Proof.
  destruct d as [dd dh dm ds].
  intros (Hd & Hh & Hm & Hs) (Ld & Lh & Lm & Ls). cbn [days hours mins secs] in *.
  assert (Nd : match dd with Some (v, _) => v <> "" | None => True end)
    by (destruct dd as [[? ?]|]; [apply Hd|done]).
  assert (Nh : match dh with Some (v, _) => v <> "" | None => True end)
    by (destruct dh as [[? ?]|]; [apply Hh|done]).
  assert (Nm : match dm with Some (v, _) => v <> "" | None => True end)
    by (destruct dm as [[? ?]|]; [apply Hm|done]).
  assert (Ns : match ds with Some (v, _) => v <> "" | None => True end)
    by (destruct ds as [[? ?]|]; [apply Hs|done]).
  pose proof (group_or_0_component dd Nd Ld) as Gd.
  pose proof (group_or_0_component dh Nh Lh) as Gh.
  pose proof (group_or_0_component dm Nm Lm) as Gm.
  pose proof (group_or_0_component ds Ns Ls) as Gs.
  clear Hd Hh Hm Hs Ld Lh Lm Ls Nd Nh Nm Ns.
  unfold group_or_0.
  destruct dd as [[vd ?]|], dh as [[vh ?]|], dm as [[vm ?]|], ds as [[vs ?]|];
    cbn -[int value] in *; repeat split; assumption.
Qed.

End DurationFacts.

(** ** The deadline parser *)

Section ParserFacts.

Variable dtparse : string -> option datetime.

Implicit Types (s : string) (now : Z).

Lemma parse_absolute s now u :
  absolute dtparse (strip s) = Some u ->
  parse_duration_or_time dtparse s now = Return u.
Proof. intros H. unfold parse_duration_or_time. by rewrite H. Qed.

Lemma parse_duration s now :
  absolute dtparse (strip s) = None ->
  parse_duration_or_time dtparse s now = duration (strip s) now.
Proof. intros H. unfold parse_duration_or_time. by rewrite H. Qed.

(** The conversion to UTC is inside the [try] block: when it leaves the
    range of [datetime] the duration pattern is tried after all. *)
Lemma parse_conversion_overflow s now dt e :
  dtparse (strip s) = Some dt -> to_utc dt = Raise e ->
  parse_duration_or_time dtparse s now = duration (strip s) now.
Proof.
  intros Hdt He. apply parse_duration. unfold absolute. by rewrite Hdt, He.
Qed.

Lemma timedelta_seconds days hours mins secs :
  0 <= days * 86400 + hours * 3600 + mins * 60 + secs
    <= 999999999 * 86400 ->
  timedelta days hours mins secs
  = Return ((days * 86400 + hours * 3600 + mins * 60 + secs) * US_PER_SECOND).
Proof.
  intros H. unfold timedelta.
  set (total := days * 86400 + hours * 3600 + mins * 60 + secs) in *.
  assert (H0 : 0 <= total / 86400 <= 999999999).
  { split; [apply Z.div_pos; lia|].
    apply Z.div_le_upper_bound; lia. }
  rewrite Z.abs_eq by lia.
  destruct (Z.ltb_spec 999999999 (total / 86400)); [lia|reflexivity].
Qed.

(** The statements after the match, on the values of the groups. *)
Lemma duration_groups s now m days hours mins secs :
  fullmatch DUR_RE (remove_spaces s) = Some m ->
  group_or_0 m "days" = Return days ->
  group_or_0 m "hours" = Return hours ->
  group_or_0 m "mins" = Return mins ->
  group_or_0 m "secs" = Return secs ->
  duration s now =
  (delta ← timedelta days hours mins secs;
   if delta <=? 0 then Raise (ValueError NOT_POSITIVE)
   else datetime_add now delta).
Proof.
  intros H Hd Hh Hm Hs. unfold duration. by rewrite H, Hd, Hh, Hm, Hs.
Qed.

End ParserFacts.

(** C3, as stated, fails: an aware value at the lower end of the range
    of [datetime] is accepted by the absolute parser, but its conversion
    to UTC raises [OverflowError] inside the [try] block; the duration
    pattern is then consulted, and here it refuses the input. *)
Lemma conversion_overflow_falls_through :
  Scenario.year_one_east (strip "0001-01-01 00:00+05:00")
    = Some {| wall := 0; utcoffset := Some 18000000000 |}
  /\ to_utc {| wall := 0; utcoffset := Some 18000000000 |}
     = Raise OverflowError
  /\ parse_duration_or_time Scenario.year_one_east "0001-01-01 00:00+05:00"
       Scenario.T0
     = Raise (ValueError HINT).
Proof. repeat split. Qed.

(** C3, amended: the absolute reading is tried first.  When [dateutil]
    accepts the stripped input, a naive value is the result as it
    stands, taken as UTC; an aware value is the result with its offset
    subtracted when that point in time is within the range of
    [datetime]; in both cases the duration pattern is not consulted.
    Only when the conversion of an aware value leaves the range is the
    duration pattern tried. *)
Theorem absolute_first
    (dtparse : string -> option datetime) (s : string) (now : Z)
    (dt : datetime) :
  dtparse (strip s) = Some dt ->
  parse_duration_or_time dtparse s now =
  match utcoffset dt with
  | None => Return (wall dt)
  | Some off =>
      if in_range (wall dt - off) then Return (wall dt - off)
      else duration (strip s) now
  end.
Proof.
  intros Hdt. unfold parse_duration_or_time, absolute. rewrite Hdt.
  unfold to_utc, datetime_add. destruct (utcoffset dt) as [off|]; [|reflexivity].
  change (wall dt + - off) with (wall dt - off).
  by destruct (in_range (wall dt - off)).
Qed.

Lemma absolute_first_witness :
  Scenario.noon_east (strip " 8h ")
    = Some {| wall := Scenario.T0; utcoffset := Some 7200000000 |}
  /\ fullmatch DUR_RE (remove_spaces (strip " 8h ")) = Some [("hours", "8")]
  /\ parse_duration_or_time Scenario.noon_east " 8h " Scenario.T0
     = Return (Scenario.T0 - 7200000000).
Proof.
  split; [reflexivity|]. split; [reflexivity|].
  exact (absolute_first Scenario.noon_east " 8h " Scenario.T0
           {| wall := Scenario.T0; utcoffset := Some 7200000000 |} eq_refl).
Defined.

(** C4: [8h] is a valid duration text of eight hours, and the pattern
    matches it; but the absolute parser, tried first, reads it as eight
    o'clock, and that point in time is returned instead of [now] plus
    eight hours. *)
Theorem eight_hours_read_as_time_of_day :
  Duration.valid Scenario.eight_hours
  /\ Duration.text Scenario.eight_hours = "8h"
  /\ Duration.seconds Scenario.eight_hours = 28800
  /\ fullmatch DUR_RE (remove_spaces (strip "8h")) = Some [("hours", "8")]
  /\ parse_duration_or_time Scenario.time_of_day "8h" Scenario.T0
     = Return (Scenario.T0 - 4 * 3600 * US_PER_SECOND)
  /\ parse_duration_or_time Scenario.time_of_day "8h" Scenario.T0
     <> Return (Scenario.T0 + 28800 * US_PER_SECOND).
Proof.
  split; [repeat split; done|]. split; [reflexivity|]. split; [reflexivity|].
  split; [reflexivity|]. split; [reflexivity|]. vm_compute. discriminate.
Qed.

(** A string that, its spaces aside, is a valid duration text with no
    number longer than [int] converts, that the absolute reading
    rejects, and whose total is positive, is read as [now] plus that
    total, provided [now] and the sum are within the range of
    [datetime]. *)
Lemma valid_duration_added
    (dtparse : string -> option datetime) (s : string) (d : Duration.parts)
    (now : Z) :
  Duration.valid d ->
  Duration.within_limit d ->
  remove_spaces s = Duration.text d ->
  absolute dtparse (strip s) = None ->
  0 < Duration.seconds d ->
  in_range now = true ->
  in_range (now + Duration.seconds d * US_PER_SECOND) = true ->
  parse_duration_or_time dtparse s now
  = Return (now + Duration.seconds d * US_PER_SECOND).
Proof.
  intros Hvalid Hlimit Htext Habs Hpos Hnow Hsum.
  rewrite parse_duration by assumption.
  assert (Hrs : remove_spaces (strip s) = Duration.text d).
  { rewrite remove_spaces_no_space; [assumption|].
    rewrite Htext. by apply text_no_space. }
  destruct (groups_text d Hvalid Hlimit) as (Gd & Gh & Gm & Gs).
  rewrite (duration_groups (strip s) now _ _ _ _ _
             (eq_trans (f_equal (fullmatch DUR_RE) Hrs)
                       (fullmatch_text d Hvalid)) Gd Gh Gm Gs).
  fold (Duration.seconds d).
  assert (Hbound : 0 <= Duration.seconds d <= 999999999 * 86400).
  { unfold in_range, MAX_US, MAXORDINAL, US_PER_SECOND in *.
    apply andb_true_iff in Hnow as [Hnow _].
    apply andb_true_iff in Hsum as [_ Hsum].
    apply Z.leb_le in Hnow, Hsum. lia. }
  unfold Duration.seconds in *. rewrite timedelta_seconds by assumption.
  cbn [mbind result_bind].
  destruct (Z.leb_spec
              ((Duration.value (Duration.days d) * 86400
                + Duration.value (Duration.hours d) * 3600
                + Duration.value (Duration.mins d) * 60
                + Duration.value (Duration.secs d)) * US_PER_SECOND) 0)
    as [Hle|_].
  - unfold US_PER_SECOND in Hle. lia.
  - unfold datetime_add. by rewrite Hsum.
Qed.

(** C8, as stated, fails: the empty string, which the absolute parser
    rejects and in which the pattern finds no component, is refused, but
    with the message "Duration must be > 0." and not with the hint that
    lists the accepted formats. *)
Lemma empty_duration_without_hint :
  absolute Scenario.reject_all (strip "") = None
  /\ fullmatch DUR_RE (remove_spaces (strip "")) = Some []
  /\ parse_duration_or_time Scenario.reject_all "" Scenario.T0
     = Raise (ValueError NOT_POSITIVE)
  /\ parse_duration_or_time Scenario.reject_all "" Scenario.T0
     <> Raise (ValueError HINT).
Proof. repeat split; discriminate. Qed.

(** C8, amended: an input that the absolute reading rejects, and that is
    blank or in which the pattern finds components that [int] converts
    (none has more than 4300 digits) and that add up to zero, is refused
    with [ValueError("Duration must be > 0.")]. *)
Theorem zero_duration_rejected
    (dtparse : string -> option datetime) (s : string) (now : Z) :
  absolute dtparse (strip s) = None ->
  (all_chars isspace s = true
   \/ exists m days hours mins secs,
        fullmatch DUR_RE (remove_spaces (strip s)) = Some m
        /\ group_or_0 m "days" = Return days
        /\ group_or_0 m "hours" = Return hours
        /\ group_or_0 m "mins" = Return mins
        /\ group_or_0 m "secs" = Return secs
        /\ days * 86400 + hours * 3600 + mins * 60 + secs = 0) ->
  parse_duration_or_time dtparse s now = Raise (ValueError NOT_POSITIVE).
Proof.
  intros Habs Hzero. rewrite parse_duration by assumption.
  assert (Hm : exists m days hours mins secs,
             fullmatch DUR_RE (remove_spaces (strip s)) = Some m
             /\ group_or_0 m "days" = Return days
             /\ group_or_0 m "hours" = Return hours
             /\ group_or_0 m "mins" = Return mins
             /\ group_or_0 m "secs" = Return secs
             /\ days * 86400 + hours * 3600 + mins * 60 + secs = 0).
  { destruct Hzero as [Hblank|Hm]; [|exact Hm].
    rewrite (all_space_strip s Hblank). by exists [], 0, 0, 0, 0. }
  destruct Hm as (m & days & hours & mins & secs & Hm & Hd & Hh & Hmi & Hs & Htotal).
  rewrite (duration_groups (strip s) now m days hours mins secs Hm Hd Hh Hmi Hs).
  rewrite timedelta_seconds by lia. rewrite Htotal. reflexivity.
Qed.

Lemma zero_duration_rejected_witness :
  parse_duration_or_time Scenario.reject_all "0h 0m" Scenario.T0
  = Raise (ValueError NOT_POSITIVE).
Proof.
  apply (zero_duration_rejected Scenario.reject_all "0h 0m" Scenario.T0).
  - reflexivity.
  - right. exists [("mins", "0"); ("hours", "0")], 0, 0, 0, 0.
    repeat split; reflexivity.
Defined.




(** * Further properties *)

(** ** The store under the commands and the event loop *)

Section KeepsFacts.

Import Keeps.

Implicit Types (s : state) (e : event) (es : list event) (t : table) (r : Row).

Lemma marked_refl t : Forall2 marked t t.
Proof. induction t; constructor; [by left|assumption]. Qed.

Lemma marked_trans r1 r2 r3 : marked r1 r2 -> marked r2 r3 -> marked r1 r3.
Proof.
  intros [->|[H1 ->]] [->|[H2 ->]].
  - by left.
  - by right.
  - by right.
  - discriminate.
Qed.

Lemma marked_trans_list t1 t2 t3 :
  Forall2 marked t1 t2 -> Forall2 marked t2 t3 -> Forall2 marked t1 t3.
Proof.
  intros H12. revert t3. induction H12 as [|r1 r2 t1 t2 Hr Ht IH]; intros t3 H23.
  - by inversion H23.
  - inversion H23 as [|? r3 ? t3' Hr' Ht']; subst. constructor.
    + by eapply marked_trans.
    + by apply IH.
Qed.

Lemma marked_update (P : Row -> Prop) `{!forall r, Decision (P r)} t :
  Forall2 marked t ((fun r => if decide (P r) then set_done r else r) <$> t).
Proof.
  induction t as [|r t IH]; [constructor|].
  rewrite fmap_cons. constructor; [|exact IH].
  destruct (decide (P r)); [|by left].
  destruct (done r) eqn:E; [left; by apply set_done_idem|by right].
Qed.

Lemma step_marked s e : Forall2 marked (db s) (db (step s e)).
Proof.
  destruct e as [d|i net| |a u g]; simpl; try apply marked_refl.
  - destruct (tasks s !! i) as [[row pc|pc]|]; [| |apply marked_refl].
    + destruct pc; simpl; try apply marked_refl.
      * destruct (clock s <? until); apply marked_refl.
      * destruct (select_pending_by_id _ _); apply marked_refl.
      * apply marked_update.
      * destruct (deliver net rec); apply marked_refl.
    + destruct pc; apply marked_refl.
  - unfold action_cancel, update_cancel, update_set_done. simpl.
    apply marked_update.
Qed.

Lemma elem_of_select_pending_for g u t r :
  r ∈ select_pending_for g u t
  <-> r ∈ t /\ guild_id r = g /\ user_id r = u /\ done r = false.
Proof.
  unfold select_pending_for. rewrite merge_sort_Permutation.
  rewrite list_elem_of_filter. tauto.
Qed.

End KeepsFacts.

(** X1: whatever the event loop runs, the table keeps its rows, in
    their order; a row is either as it was or differs only in [done],
    which went from 0 to 1. *)
Theorem run_keeps_rows (s : state) (es : list event) :
  Forall2 Keeps.marked (db s) (db (run s es)).
Proof.
  revert s. induction es as [|e es IH]; intros s; [apply marked_refl|].
  eapply marked_trans_list; [apply step_marked|apply IH].
Qed.

(** X2: a cancel takes out of the listings the pending rows with that
    id of that user in that guild, and nothing else: every listing
    afterwards has the rows it had before except those. *)
Theorem cancel_then_list (i u g g' u' : Z) (t : table) (r : Row) :
  r ∈ select_pending_for g' u' (fst (action_cancel i u g t))
  <-> r ∈ select_pending_for g' u' t
      /\ ~ (id r = i /\ user_id r = u /\ guild_id r = g).
Proof.
  rewrite !elem_of_select_pending_for.
  unfold action_cancel, update_cancel, update_set_done. simpl.
  rewrite list_elem_of_fmap. split.
  - intros ((r0 & -> & Hin) & Hg & Hu & Hd).
    destruct (decide _) as [HP|HP].
    + rewrite set_done_done in Hd. discriminate.
    + repeat split; try assumption. intros (? & ? & ?). apply HP. tauto.
  - intros ((Hin & Hg & Hu & Hd) & Hnot). repeat split; try assumption.
    exists r. split; [|assumption].
    destruct (decide _) as [HP|HP]; [|reflexivity].
    exfalso. apply Hnot. tauto.
Qed.

(** ** Workers and settled rows *)

Section SilenceFacts.

Import Keeps.

Implicit Types (s : state) (e : event) (es : list event) (t : table)
  (r : Row) (j : Z) (ts : list task) (x : task).

Lemma elem_of_insert_inv ts (i : nat) x y :
  y ∈ <[i:=x]> ts -> y = x \/ y ∈ ts.
Proof.
  revert i. induction ts as [|a ts IH]; intros i; [intros H; inversion H|].
  destruct i as [|i]; simpl.
  - intros H. apply elem_of_cons in H as [->|H]; [by left|].
    right. by right.
  - intros H. apply elem_of_cons in H as [->|H]; [right; by left|].
    apply IH in H as [->|H]; [by left|right; by right].
Qed.

Lemma quiet_insert j ts (i : nat) x :
  quiet j ts -> ~ in_flight j x -> quiet j (<[i:=x]> ts).
Proof.
  intros Hq Hx y Hy. apply elem_of_insert_inv in Hy as [->|Hy]; [assumption|].
  by apply Hq.
Qed.

Lemma quiet_app j ts ts' : quiet j ts -> quiet j ts' -> quiet j (ts ++ ts').
Proof.
  intros Hq Hq' y Hy. apply elem_of_app in Hy as [Hy|Hy]; auto.
Qed.

Lemma quiet_armed j now (rows : list Row) : quiet j (schedule_task now <$> rows).
Proof.
  intros y Hy. apply list_elem_of_fmap in Hy as (r & -> & _). simpl. tauto.
Qed.

Lemma settled_update (P : Row -> Prop) `{!forall r, Decision (P r)} j t :
  settled j t ->
  settled j ((fun r => if decide (P r) then set_done r else r) <$> t).
Proof.
  intros Hs r Hr Hid. apply list_elem_of_fmap in Hr as (r0 & -> & Hin).
  destruct (decide (P r0)); [reflexivity|]. by apply Hs.
Qed.

Lemma select_pending_by_id_Some (i : Z) t r :
  select_pending_by_id i t = Some r -> r ∈ t /\ id r = i /\ done r = false.
Proof.
  unfold select_pending_by_id.
  destruct (filter _ t) as [|r' l] eqn:E; [discriminate|].
  intros [= ->].
  assert (Hr : r ∈ filter (fun r => id r = i /\ done r = false) t)
    by (rewrite E; left).
  apply list_elem_of_filter in Hr. tauto.
Qed.

Lemma settled_select j t (i : Z) rec :
  settled j t -> select_pending_by_id i t = Some rec -> id rec <> j.
Proof.
  intros Hs Hsel Hid. apply select_pending_by_id_Some in Hsel as (Hin & _ & Hd).
  rewrite (Hs rec Hin Hid) in Hd. discriminate.
Qed.

Lemma deliver_effects net rec :
  fst (deliver net rec) = Return ()
  /\ (length (snd (deliver net rec)) <= 1)%nat
  /\ forall j, id rec <> j -> delivered_for j (snd (deliver net rec)) = [].
Proof.
  unfold deliver. destruct (resolve_channel net (channel_id rec)) as [ch|].
  - destruct (send net ch (message rec)); simpl.
    + split; [reflexivity|]. split; [lia|].
      intros j Hj. unfold delivered_for. rewrite filter_cons. simpl.
      rewrite bool_decide_eq_false_2 by assumption.
      by rewrite decide_False by discriminate.
    + split; [reflexivity|]. split; [lia|]. intros j Hj. reflexivity.
  - simpl. split; [reflexivity|]. split; [lia|]. intros j Hj. reflexivity.
Qed.

Lemma step_settled s e j :
  settled j (db s) -> quiet j (tasks s) ->
  settled j (db (step s e)) /\ quiet j (tasks (step s e))
  /\ delivered_for j (log (step s e)) = delivered_for j (log s).
Proof.
  intros Hs Hq. destruct e as [d|i net| |a u g]; simpl.
  - done.
  - destruct (tasks s !! i) as [[row pc|pc]|] eqn:Hi; [| |done].
    + assert (Hin : Worker row pc ∈ tasks s)
        by (by eapply list_elem_of_lookup_2).
      destruct pc as [d|until| |rec|rec|res]; simpl.
      * split; [assumption|]. split; [|reflexivity].
        apply quiet_insert; [assumption|simpl; tauto].
      * destruct (clock s <? until); [done|]. simpl.
        split; [assumption|]. split; [|reflexivity].
        apply quiet_insert; [assumption|simpl; tauto].
      * destruct (select_pending_by_id (id row) (db s)) as [rec|] eqn:Hsel; simpl.
        -- split; [assumption|]. split; [|reflexivity].
           apply quiet_insert; [assumption|]. simpl.
           by eapply settled_select.
        -- split; [assumption|]. split; [|reflexivity].
           apply quiet_insert; [assumption|simpl; tauto].
      * split; [by apply settled_update|]. split; [|reflexivity].
        apply quiet_insert; [assumption|]. exact (Hq _ Hin).
      * destruct (deliver_effects net rec) as (_ & _ & Hother).
        destruct (deliver net rec) as [res effs]. simpl in *.
        split; [assumption|]. split.
        -- apply quiet_insert; [assumption|simpl; tauto].
        -- unfold delivered_for in *. rewrite filter_app.
           rewrite (Hother j (Hq _ Hin)). by rewrite app_nil_r.
      * done.
    + destruct pc as [|rows|]; simpl.
      * split; [assumption|]. split; [|reflexivity].
        apply quiet_insert; [assumption|simpl; tauto].
      * split; [assumption|]. split; [|reflexivity].
        apply quiet_app; [|apply quiet_armed].
        apply quiet_insert; [assumption|simpl; tauto].
      * done.
  - split; [assumption|]. split; [|reflexivity].
    apply quiet_app; [assumption|].
    intros y Hy. apply list_elem_of_singleton in Hy as ->. simpl. tauto.
  - unfold action_cancel, update_cancel, update_set_done. simpl.
    split; [by apply settled_update|]. split; [assumption|reflexivity].
Qed.

Lemma count_finished_insert ts (i : nat) x y :
  ts !! i = Some x ->
  (count_finished (<[i:=y]> ts) + (if finished x then 1 else 0)
   = count_finished ts + (if finished y then 1 else 0))%nat.
Proof.
  unfold count_finished. revert i.
  induction ts as [|a ts IH]; intros i; [discriminate|].
  destruct i as [|i]; simpl.
  - intros [= ->]. rewrite !filter_cons.
    destruct (finished x), (finished y); simpl; lia.
  - intros Hi. specialize (IH i Hi). rewrite !filter_cons.
    destruct (decide (finished a = true)); simpl; lia.
Qed.

Lemma count_finished_app ts ts' :
  (count_finished ts <= count_finished (ts ++ ts'))%nat.
Proof. unfold count_finished. rewrite filter_app, length_app. lia. Qed.

Lemma step_counts s e :
  (length (log (step s e)) + count_finished (tasks s)
   <= length (log s) + count_finished (tasks (step s e)))%nat.
Proof.
  destruct e as [d|i net| |a u g]; simpl; try lia.
  - destruct (tasks s !! i) as [[row pc|pc]|] eqn:Hi; [| |lia].
    + destruct pc as [d|until| |rec|rec|res]; simpl.
      * pose proof (count_finished_insert _ i _
                      (Worker row (Sleeping (clock s + d))) Hi). simpl in *. lia.
      * destruct (clock s <? until); [lia|]. simpl.
        pose proof (count_finished_insert _ i _ (Worker row AtSelect) Hi).
        simpl in *. lia.
      * destruct (select_pending_by_id (id row) (db s)) as [rec|]; simpl.
        -- pose proof (count_finished_insert _ i _
                         (Worker row (AtUpdate rec)) Hi). simpl in *. lia.
        -- pose proof (count_finished_insert _ i _
                         (Worker row (Exited (Return ()))) Hi). simpl in *. lia.
      * pose proof (count_finished_insert _ i _
                      (Worker row (AtNotify rec)) Hi). simpl in *. lia.
      * destruct (deliver_effects net rec) as (_ & Hlen & _).
        destruct (deliver net rec) as [res effs]. simpl in *.
        pose proof (count_finished_insert _ i _
                      (Worker row (Exited res)) Hi).
        rewrite length_app. simpl in *. lia.
      * lia.
    + destruct pc as [|rows|]; simpl.
      * pose proof (count_finished_insert _ i _
                      (Reconciler (AtArm (select_pending (db s)))) Hi).
        simpl in *. lia.
      * pose proof (count_finished_insert _ i _ (Reconciler Loaded) Hi).
        pose proof (count_finished_app (<[i:=Reconciler Loaded]> (tasks s))
                      (schedule_task (clock s) <$> rows)).
        simpl in *. lia.
      * lia.
  - pose proof (count_finished_app (tasks s) [Reconciler AtLoad]). lia.
Qed.

End SilenceFacts.

(** X3: once every row with key [j] is done and no worker holds a
    fetched row with that key, no reminder for [j] is delivered any
    more, whatever the event loop runs: workers that wake up later,
    further cancels and further runs of the reconciler included. *)
Theorem settled_row_stays_silent (s : state) (j : Z) (es : list event) :
  Keeps.settled j (db s) ->
  Keeps.quiet j (tasks s) ->
  delivered_for j (log (run s es)) = delivered_for j (log s)
  /\ Keeps.settled j (db (run s es))
  /\ Keeps.quiet j (tasks (run s es)).
Proof.
  revert s. induction es as [|e es IH]; intros s Hs Hq; [done|].
  destruct (step_settled s e j Hs Hq) as (Hs' & Hq' & Hlog).
  destruct (IH (step s e) Hs' Hq') as (Hlog' & ? & ?).
  split; [|done]. simpl. by rewrite Hlog', Hlog.
Qed.

Lemma settled_row_stays_silent_witness :
  let s := step Scenario.armed (Cancel 1 20 10) in
  let es := Scenario.until_selected ++ Scenario.update_and_notify in
  replies s = [(1, true)]
  /\ delivered_for 1 (log (run s es)) = delivered_for 1 (log s).
Proof.
  intros s es. split; [reflexivity|].
  refine (proj1 (settled_row_stays_silent s 1 es _ _)).
  - intros r Hr _. apply list_elem_of_singleton in Hr. by subst.
  - intros x Hx. apply list_elem_of_singleton in Hx. subst. simpl. tauto.
Defined.

(** X4: a run of the event loop sends at most one message for every
    worker that returns during the run: the length of the log grows by
    no more than the number of workers that have returned. *)
Theorem one_message_per_worker (s : state) (es : list event) :
  (length (log (run s es)) + Keeps.count_finished (tasks s)
   <= length (log s) + Keeps.count_finished (tasks (run s es)))%nat.
Proof.
  revert s. induction es as [|e es IH]; intros s; [simpl; lia|].
  pose proof (step_counts s e). pose proof (IH (step s e)). simpl. lia.
Qed.

(** X5: a worker that finds its row pending and runs its [SELECT],
    [UPDATE] and delivery with nothing in between sends exactly one
    reminder, built from the stored row, to the channel of that row;
    afterwards every row with that key is done and the worker has
    returned. *)
Theorem worker_undisturbed
    (s : state) (i : nat) (net : discord) (row rec : Row) (ch : Z) :
  tasks s !! i = Some (Worker row AtSelect) ->
  select_pending_by_id (id row) (db s) = Some rec ->
  resolve_channel net (channel_id rec) = Some ch ->
  send net ch (message rec) = Return () ->
  log (run s [Resume i net; Resume i net; Resume i net])
    = log s ++ [Delivered (id rec) ch (message rec)]
  /\ db (run s [Resume i net; Resume i net; Resume i net])
     = update_done_by_id (id row) (db s)
  /\ Keeps.settled (id row)
       (db (run s [Resume i net; Resume i net; Resume i net]))
  /\ tasks (run s [Resume i net; Resume i net; Resume i net]) !! i
     = Some (Worker row (Exited (Return ()))).
Proof.
  intros Hi Hsel Hch Hsend.
  assert (Hlt : (i < length (tasks s))%nat) by by eapply lookup_lt_Some.
  unfold run. cbn [foldl].
  assert (H1 : step s (Resume i net)
               = set_task i (Worker row (AtUpdate rec)) s).
  { simpl. rewrite Hi. simpl. by rewrite Hsel. }
  rewrite H1.
  assert (H2 : step (set_task i (Worker row (AtUpdate rec)) s) (Resume i net)
               = {| db := update_done_by_id (id row) (db s); clock := clock s;
                    tasks := <[i:=Worker row (AtNotify rec)]> (tasks s);
                    log := log s; replies := replies s |}).
  { simpl. rewrite list_lookup_insert_eq by assumption. simpl.
    by rewrite list_insert_insert_eq. }
  rewrite H2. simpl.
  rewrite list_lookup_insert_eq by assumption. simpl.
  unfold deliver. rewrite Hch, Hsend. simpl.
  split; [reflexivity|]. split; [reflexivity|]. split.
  - intros r Hr Hid. unfold update_done_by_id, update_set_done in Hr.
    simpl in Hr. apply list_elem_of_fmap in Hr as (r0 & -> & Hin).
    destruct (decide (id r0 = id row)); [reflexivity|contradiction].
  - rewrite list_insert_insert_eq. by apply list_lookup_insert_eq.
Qed.

Lemma worker_undisturbed_witness :
  let s := run Scenario.armed
             [Resume 0 Scenario.online; Tick 2700000000;
              Resume 0 Scenario.online] in
  log (run s [Resume 0 Scenario.online; Resume 0 Scenario.online;
              Resume 0 Scenario.online])
  = [Delivered 1 30 (message Scenario.scout)].
Proof.
  intros s.
  exact (proj1 (worker_undisturbed s 0 Scenario.online Scenario.scout
                  Scenario.scout 30 eq_refl eq_refl eq_refl eq_refl)).
Defined.

(** ** More on the deadline parser *)

Section ParserOutcomes.

Variable dtparse : string -> option datetime.

Implicit Types (s : string) (now : Z) (m : captures).

Lemma group_or_0_raises m (name : string) e :
  group_or_0 m name = Raise e ->
  exists n, (MAX_STR_DIGITS < n)%nat /\ e = ValueError (exceeds_limit n).
Proof.
  unfold group_or_0. destruct (group m name) as [[|x v]|]; try discriminate.
  unfold int.
  destruct (Nat.ltb_spec MAX_STR_DIGITS (String.length (String x v)));
    [|discriminate].
  intros [= <-]. eauto.
Qed.

Lemma hint_not_limit (n : nat) : HINT <> exceeds_limit n.
Proof. discriminate. Qed.

Lemma not_positive_not_limit (n : nat) : NOT_POSITIVE <> exceeds_limit n.
Proof. discriminate. Qed.

Lemma duration_returns s now t :
  duration s now = Return t ->
  exists n, 0 < n /\ t = now + n * US_PER_SECOND /\ in_range t = true.
Proof.
  unfold duration. destruct (fullmatch DUR_RE (remove_spaces s)) as [m|];
    [|discriminate].
  destruct (group_or_0 m "days") as [days|]; [|discriminate].
  destruct (group_or_0 m "hours") as [hours|]; [|discriminate].
  destruct (group_or_0 m "mins") as [mins|]; [|discriminate].
  destruct (group_or_0 m "secs") as [secs|]; [|discriminate].
  cbn [mbind result_bind].
  unfold timedelta. destruct (999999999 <? _); [discriminate|].
  cbn [mbind result_bind].
  set (total := days * 86400 + hours * 3600 + mins * 60 + secs).
  destruct (Z.leb_spec (total * US_PER_SECOND) 0) as [|Hpos]; [discriminate|].
  unfold datetime_add.
  destruct (in_range (now + total * US_PER_SECOND)) eqn:E; [|discriminate].
  intros [= <-]. exists total. unfold US_PER_SECOND in *.
  repeat split; try assumption; lia.
Qed.

Lemma duration_raises s now e :
  duration s now = Raise e ->
  (e = ValueError HINT /\ fullmatch DUR_RE (remove_spaces s) = None)
  \/ (exists n, (MAX_STR_DIGITS < n)%nat /\ e = ValueError (exceeds_limit n))
  \/ (e = ValueError NOT_POSITIVE
      /\ exists m days hours mins secs,
           fullmatch DUR_RE (remove_spaces s) = Some m
           /\ group_or_0 m "days" = Return days
           /\ group_or_0 m "hours" = Return hours
           /\ group_or_0 m "mins" = Return mins
           /\ group_or_0 m "secs" = Return secs
           /\ days * 86400 + hours * 3600 + mins * 60 + secs <= 0)
  \/ (e = OverflowError
      /\ exists m, fullmatch DUR_RE (remove_spaces s) = Some m).
Proof.
  unfold duration. destruct (fullmatch DUR_RE (remove_spaces s)) as [m|].
  2: { intros [= <-]. by left. }
  destruct (group_or_0 m "days") as [days|e0] eqn:Hd.
  2: { intros [= <-]. right. left. by eapply group_or_0_raises. }
  destruct (group_or_0 m "hours") as [hours|e0] eqn:Hh.
  2: { intros [= <-]. right. left. by eapply group_or_0_raises. }
  destruct (group_or_0 m "mins") as [mins|e0] eqn:Hm.
  2: { intros [= <-]. right. left. by eapply group_or_0_raises. }
  destruct (group_or_0 m "secs") as [secs|e0] eqn:Hs.
  2: { intros [= <-]. right. left. by eapply group_or_0_raises. }
  cbn [mbind result_bind].
  unfold timedelta. destruct (999999999 <? _).
  { intros [= <-]. right. right. right. eauto. }
  cbn [mbind result_bind].
  set (total := days * 86400 + hours * 3600 + mins * 60 + secs).
  destruct (Z.leb_spec (total * US_PER_SECOND) 0) as [Hle|Hpos].
  { intros [= <-]. right. right. left. split; [reflexivity|].
    exists m, days, hours, mins, secs.
    unfold US_PER_SECOND in Hle. repeat split; try assumption. lia. }
  unfold datetime_add. destruct (in_range _); [discriminate|].
  intros [= <-]. right. right. right. eauto.
Qed.

Lemma parse_raises s now e :
  parse_duration_or_time dtparse s now = Raise e ->
  absolute dtparse (strip s) = None /\ duration (strip s) now = Raise e.
Proof.
  unfold parse_duration_or_time.
  destruct (absolute dtparse (strip s)); [discriminate|]. by intros ->.
Qed.

End ParserOutcomes.

(** X6: a deadline that comes from the duration pattern is later than
    [now] by a positive whole number of seconds and lies within the
    range of [datetime]. *)
Theorem relative_deadline_is_later
    (dtparse : string -> option datetime) (s : string) (now t : Z) :
  absolute dtparse (strip s) = None ->
  parse_duration_or_time dtparse s now = Return t ->
  now < t
  /\ (exists n, 0 < n /\ t = now + n * US_PER_SECOND)
  /\ in_range t = true.
Proof.
  intros Habs. rewrite parse_duration by assumption. intros H.
  apply duration_returns in H as (n & Hpos & -> & Hr).
  split; [unfold US_PER_SECOND; lia|]. split; [eauto|assumption].
Qed.

Lemma relative_deadline_is_later_witness :
  Scenario.T0 < Scenario.T0 + 2700000000.
Proof.
  exact (proj1 (relative_deadline_is_later Scenario.reject_all "45m"
                  Scenario.T0 (Scenario.T0 + 2700000000) eq_refl eq_refl)).
Defined.

(** X7: the parser raises only when the absolute reading was rejected,
    and then one of four exceptions: [ValueError] with the hint, when
    the pattern does not match the stripped, space-free input;
    [ValueError] with the message of [int] about its limit of 4300
    digits, naming a number of digits above the limit;
    [ValueError("Duration must be > 0.")], when the pattern matches,
    every group converts and the total is not positive; or
    [OverflowError], when the pattern matches. *)
Theorem parse_exceptions
    (dtparse : string -> option datetime) (s : string) (now : Z) (e : exn) :
  parse_duration_or_time dtparse s now = Raise e ->
  absolute dtparse (strip s) = None
  /\ ((e = ValueError HINT
       /\ fullmatch DUR_RE (remove_spaces (strip s)) = None)
      \/ (exists n, (MAX_STR_DIGITS < n)%nat
                    /\ e = ValueError (exceeds_limit n))
      \/ (e = ValueError NOT_POSITIVE
          /\ exists m days hours mins secs,
               fullmatch DUR_RE (remove_spaces (strip s)) = Some m
               /\ group_or_0 m "days" = Return days
               /\ group_or_0 m "hours" = Return hours
               /\ group_or_0 m "mins" = Return mins
               /\ group_or_0 m "secs" = Return secs
               /\ days * 86400 + hours * 3600 + mins * 60 + secs <= 0)
      \/ (e = OverflowError
          /\ exists m, fullmatch DUR_RE (remove_spaces (strip s)) = Some m)).
Proof.
  intros H. apply parse_raises in H as [Habs H]. split; [assumption|].
  exact (duration_raises (strip s) now e H).
Qed.

Lemma parse_exceptions_witness :
  fullmatch DUR_RE (remove_spaces (strip "2h1d")) = None.
Proof.
  destruct (proj2 (parse_exceptions Scenario.reject_all "2h1d" Scenario.T0
                     (ValueError HINT) eq_refl))
    as [[_ H]|[(n & _ & H)|[[H _]|[H _]]]].
  - exact H.
  - destruct (hint_not_limit n
                (f_equal (fun e => match e with ValueError msg => msg | _ => "" end)
                   H)).
  - discriminate H.
  - discriminate H.
Defined.

(** ** White space between the components *)

Section SeparatedFacts.

Import Duration.

Implicit Types (s t w : string) (c : part) (caps : captures) (k : cont)
  (p : ascii -> bool).

Lemma append_assoc s t w : (s +:+ t) +:+ w = s +:+ (t +:+ w).
Proof.
  induction s as [|x s IH]; [reflexivity|].
  change (String x ((s +:+ t) +:+ w) = String x (s +:+ (t +:+ w))).
  by f_equal.
Qed.

Lemma append_nil_r s : s +:+ "" = s.
Proof.
  induction s as [|x s IH]; [reflexivity|].
  change (String x (s +:+ "") = String x s). by f_equal.
Qed.

Lemma all_chars_append p s t :
  all_chars p (s +:+ t) = all_chars p s && all_chars p t.
Proof.
  induction s as [|x s IH]; simpl; [reflexivity|].
  by rewrite IH, andb_assoc.
Qed.

Lemma skip_all p s : all_chars p s = true -> skip p s = "".
Proof.
  induction s as [|x s IH]; simpl; [reflexivity|].
  intros H. apply andb_true_iff in H as [-> H]. by apply IH.
Qed.

Lemma skip_all_append p s t :
  all_chars p s = true -> skip p (s +:+ t) = skip p t.
Proof.
  induction s as [|x s IH]; simpl; [reflexivity|].
  intros H. apply andb_true_iff in H as [-> H]. by apply IH.
Qed.

Lemma skip_stop p s : starts_with p s = false -> skip p s = s.
Proof. destruct s as [|x s]; simpl; [reflexivity|]. by intros ->. Qed.

(** The greedy repetition succeeds when the rest of the pattern accepts
    what is left after the longest run. *)
Lemma star_longest p s caps k m :
  k (skip p s) caps = Some m -> star p s caps k = Some m.
Proof.
  induction s as [|x s IH]; simpl; [done|].
  destruct (p x); [|done]. intros H. by rewrite (IH H).
Qed.

Lemma space_not_digit x : isspace x = true -> isdigit x = false.
Proof.
  intros H. destruct (isdigit x) eqn:E; [|reflexivity].
  apply digit_not_space in E. congruence.
Qed.

Lemma present_starts lo up ds x rest :
  well_formed lo up (Some (ds, x)) ->
  starts_with isspace (write (Some (ds, x)) rest) = false
  /\ starts_with isdigit (write (Some (ds, x)) rest) = true.
Proof.
  intros (Hne & Hds & _). destruct ds as [|d0 ds]; [done|]. simpl in *.
  apply andb_true_iff in Hds as [Hd0 _].
  split; [by apply digit_not_space|assumption].
Qed.

Lemma present_no_component lo up lo' up' ds x rest :
  isdigit lo' = false -> isdigit up' = false ->
  (forall y, letter lo' up' y = true -> letter lo up y = false) ->
  well_formed lo' up' (Some (ds, x)) ->
  no_component lo up (write (Some (ds, x)) rest) = true.
Proof.
  intros Hlo Hup Hdisj (_ & Hds & Hx). unfold no_component. simpl.
  rewrite (skip_append isdigit ds x rest Hds
             (letter_not_digit lo' up' x Hlo Hup Hx)).
  simpl. rewrite (Hdisj x Hx). apply orb_true_r.
Qed.

Lemma no_component_skip lo up s :
  no_component lo up (skip isspace s) = true -> no_component lo up s = true.
Proof.
  destruct s as [|x s]; [done|]. simpl.
  destruct (isspace x) eqn:E; [|done]. intros _.
  unfold no_component. simpl. by rewrite (space_not_digit x E).
Qed.

Lemma skip_skip p s : skip p (skip p s) = skip p s.
Proof.
  induction s as [|x s IH]; simpl; [reflexivity|].
  destruct (p x) eqn:E; [assumption|]. simpl. by rewrite E.
Qed.

Local Abbreviation rS := (component "secs" "s" "S").
Local Abbreviation rM :=
  (Seq (component "mins" "m" "M") (Seq (Star isspace) rS)).
Local Abbreviation rH :=
  (Seq (component "hours" "h" "H") (Seq (Star isspace) rM)).

Ltac letters :=
  let x := fresh "x" in let H := fresh "H" in
  intros x H; unfold letter in H;
  apply orb_true_iff in H as [H|H]; apply Ascii.eqb_eq in H; subst;
  reflexivity.

Section Tails.

Variables (cH cM cS : part) (g2 g3 : string).
Hypothesis (HcH : well_formed "h" "H" cH) (HcM : well_formed "m" "M" cM)
  (HcS : well_formed "s" "S" cS).
Hypothesis (Hg2 : all_chars isspace g2 = true)
  (Hg3 : all_chars isspace g3 = true).

Let tS : string := write cS "".
Let tM : string := write cM (g3 +:+ tS).
Let tH : string := write cH (g2 +:+ tM).

Lemma tail_secs_no_component lo up w :
  all_chars isspace w = true ->
  (forall y, letter "s" "S" y = true -> letter lo up y = false) ->
  no_component lo up (skip isspace (w +:+ tS)) = true.
Proof.
  intros Hw Hs. rewrite (skip_all_append isspace w tS Hw). subst tS.
  destruct cS as [[ds x]|]; [|reflexivity].
  rewrite skip_stop by (by eapply present_starts).
  by apply (present_no_component lo up "s" "S").
Qed.

Lemma tail_mins_no_component lo up w :
  all_chars isspace w = true ->
  (forall y, letter "m" "M" y = true -> letter lo up y = false) ->
  (forall y, letter "s" "S" y = true -> letter lo up y = false) ->
  no_component lo up (skip isspace (w +:+ tM)) = true.
Proof.
  intros Hw Hm Hs. subst tM. destruct cM as [[ds x]|].
  - rewrite (skip_all_append isspace w _ Hw).
    rewrite skip_stop by (by eapply present_starts).
    by apply (present_no_component lo up "m" "M").
  - cbn [write]. rewrite <- append_assoc. apply tail_secs_no_component; [|done].
    by rewrite all_chars_append, Hw, Hg3.
Qed.

Lemma tail_hours_no_component lo up w :
  all_chars isspace w = true ->
  (forall y, letter "h" "H" y = true -> letter lo up y = false) ->
  (forall y, letter "m" "M" y = true -> letter lo up y = false) ->
  (forall y, letter "s" "S" y = true -> letter lo up y = false) ->
  no_component lo up (skip isspace (w +:+ tH)) = true.
Proof.
  intros Hw Hh Hm Hs. subst tH. destruct cH as [[ds x]|].
  - rewrite (skip_all_append isspace w _ Hw).
    rewrite skip_stop by (by eapply present_starts).
    by apply (present_no_component lo up "h" "H").
  - cbn [write]. rewrite <- append_assoc. apply tail_mins_no_component; try done.
    by rewrite all_chars_append, Hw, Hg2.
Qed.

Lemma tail_secs w caps :
  all_chars isspace w = true ->
  rmatch rS (skip isspace (w +:+ tS)) caps at_end
  = Some (capture "secs" cS ++ caps).
Proof.
  intros Hw. rewrite (skip_all_append isspace w tS Hw). subst tS.
  destruct cS as [[ds x]|].
  - rewrite skip_stop by (by eapply present_starts). by apply last_stage.
  - by apply (last_stage "secs" "s" "S" None).
Qed.

Lemma tail_mins w caps :
  all_chars isspace w = true ->
  rmatch rM (skip isspace (w +:+ tM)) caps at_end
  = Some (capture "secs" cS ++ capture "mins" cM ++ caps).
Proof.
  intros Hw.
  change (rmatch (component "mins" "m" "M") (skip isspace (w +:+ tM)) caps
            (fun s1 caps1 =>
               star isspace s1 caps1 (fun s2 caps2 => rmatch rS s2 caps2 at_end))
          = Some (capture "secs" cS ++ capture "mins" cM ++ caps)).
  pose proof (tail_mins_no_component "m" "M" w Hw) as Hno.
  subst tM. destruct cM as [[ds x]|]; cbn [write capture app] in *.
  - clear Hno. rewrite (skip_all_append isspace w _ Hw).
    rewrite skip_stop by (by eapply (present_starts "m" "M")).
    destruct HcM as (Hne & Hds & Hx). cbn [write].
    rewrite component_present by done.
    rewrite (star_longest isspace (g3 +:+ tS) _ _ _ (tail_secs g3 _ Hg3)).
    reflexivity.
  - rewrite <- append_assoc.
    assert (Hw' : all_chars isspace (w +:+ g3) = true)
      by by rewrite all_chars_append, Hw, Hg3.
    rewrite component_absent;
      [|done|done|apply tail_secs_no_component; [done|letters]].
    apply star_longest. rewrite skip_skip. by apply tail_secs.
Qed.

Lemma tail_hours w caps :
  all_chars isspace w = true ->
  rmatch rH (skip isspace (w +:+ tH)) caps at_end
  = Some (capture "secs" cS ++ capture "mins" cM ++ capture "hours" cH ++ caps).
Proof.
  intros Hw.
  change (rmatch (component "hours" "h" "H") (skip isspace (w +:+ tH)) caps
            (fun s1 caps1 =>
               star isspace s1 caps1 (fun s2 caps2 => rmatch rM s2 caps2 at_end))
          = Some (capture "secs" cS ++ capture "mins" cM
                  ++ capture "hours" cH ++ caps)).
  subst tH. destruct cH as [[ds x]|]; cbn [write capture app] in *.
  - rewrite (skip_all_append isspace w _ Hw).
    rewrite skip_stop by (by eapply (present_starts "h" "H")).
    destruct HcH as (Hne & Hds & Hx). cbn [write].
    rewrite component_present by done.
    rewrite (star_longest isspace (g2 +:+ tM) _ _ _ (tail_mins g2 _ Hg2)).
    reflexivity.
  - rewrite <- append_assoc.
    assert (Hw' : all_chars isspace (w +:+ g2) = true)
      by by rewrite all_chars_append, Hw, Hg2.
    rewrite component_absent;
      [|done|done|apply tail_mins_no_component; [done|letters|letters]].
    apply star_longest. rewrite skip_skip. by apply tail_mins.
Qed.

End Tails.

(** [DUR_RE] matches the components with any white space between them. *)
Lemma fullmatch_separated d (g : Separated.gaps) :
  valid d -> Separated.blank g ->
  fullmatch DUR_RE (Separated.text d g)
  = Some (capture "secs" (secs d) ++ capture "mins" (mins d)
          ++ capture "hours" (hours d) ++ capture "days" (days d) ++ []).
Proof.
  intros (Hd & Hh & Hm & Hs) (H1 & H2 & H3).
  unfold fullmatch, Separated.text.
  set (tH := write (hours d) _).
  change (rmatch (component "days" "d" "D")
            (write (days d) (Separated.gap1 g +:+ tH)) []
            (fun s1 caps1 =>
               star isspace s1 caps1 (fun s2 caps2 => rmatch rH s2 caps2 at_end))
          = Some (capture "secs" (secs d) ++ capture "mins" (mins d)
                  ++ capture "hours" (hours d) ++ capture "days" (days d) ++ [])).
  destruct (days d) as [[ds x]|]; cbn [write capture app] in *.
  - destruct Hd as (Hne & Hds & Hx).
    rewrite component_present by done.
    by rewrite (star_longest isspace _ _ _ _
                  (tail_hours (hours d) (mins d) (secs d) (Separated.gap2 g)
                     (Separated.gap3 g) Hh Hm Hs H2 H3 (Separated.gap1 g) _ H1)).
  - rewrite component_absent; [|done|done|].
    + apply star_longest.
      exact (tail_hours (hours d) (mins d) (secs d) (Separated.gap2 g)
               (Separated.gap3 g) Hh Hm Hs H2 H3 (Separated.gap1 g) [] H1).
    + apply no_component_skip.
      apply (tail_hours_no_component (hours d) (mins d) (secs d)
               (Separated.gap2 g) (Separated.gap3 g) Hh Hm Hs H2 H3);
        [done|letters|letters|letters].
Qed.

(** The statements after the [try] block on such a text. *)
Lemma duration_separated s d (g : Separated.gaps) now :
  valid d -> within_limit d -> Separated.blank g ->
  remove_spaces s = Separated.text d g ->
  0 < seconds d ->
  duration s now
  = if 999999999 <? seconds d / 86400 then Raise OverflowError
    else datetime_add now (seconds d * US_PER_SECOND).
Proof.
  intros Hvalid Hlimit Hblank Htext Hpos.
  destruct (groups_text d Hvalid Hlimit) as (Gd & Gh & Gm & Gs).
  rewrite (duration_groups s now _ _ _ _ _
             (eq_trans (f_equal (fullmatch DUR_RE) Htext)
                       (fullmatch_separated d g Hvalid Hblank)) Gd Gh Gm Gs).
  fold (seconds d). unfold timedelta. fold (seconds d).
  rewrite Z.abs_eq by (apply Z.div_pos; lia).
  destruct (999999999 <? seconds d / 86400); [reflexivity|].
  cbn [mbind result_bind].
  destruct (Z.leb_spec (seconds d * US_PER_SECOND) 0) as [Hle|_];
    [unfold US_PER_SECOND in Hle; lia|reflexivity].
Qed.

Lemma fullmatch_digits ds :
  ds <> "" -> all_chars isdigit ds = true -> fullmatch DUR_RE ds = None.
Proof.
  intros Hne Hds.
  assert (Hno : forall lo up, no_component lo up ds = true).
  { intros lo up. unfold no_component. rewrite (skip_all isdigit ds Hds).
    apply orb_true_r. }
  assert (Hsp : starts_with isspace ds = false).
  { destruct ds as [|d0 ds']; [done|]. simpl in *.
    apply andb_true_iff in Hds as [Hd0 _]. by apply digit_not_space. }
  unfold fullmatch, DUR_RE. cbn [rmatch].
  rewrite component_absent by done. rewrite star_stop by done.
  rewrite component_absent by done. rewrite star_stop by done.
  rewrite component_absent by done. rewrite star_stop by done.
  rewrite component_absent by done. by destruct ds.
Qed.

End SeparatedFacts.

(** X8: the components of a duration may be separated by any white
    space, tabs and line breaks included: an input whose stripped,
    space-free form is such a text with no number of more than 4300
    digits, that the absolute reading rejects and whose total is
    positive is read as [now] plus the total, when [now] and the sum are
    within the range of [datetime]. *)
Theorem separated_duration_added
    (dtparse : string -> option datetime) (s : string) (d : Duration.parts)
    (g : Separated.gaps) (now : Z) :
  Duration.valid d -> Duration.within_limit d -> Separated.blank g ->
  remove_spaces (strip s) = Separated.text d g ->
  absolute dtparse (strip s) = None ->
  0 < Duration.seconds d ->
  in_range now = true ->
  in_range (now + Duration.seconds d * US_PER_SECOND) = true ->
  parse_duration_or_time dtparse s now
  = Return (now + Duration.seconds d * US_PER_SECOND).
Proof.
  intros Hvalid Hlimit Hblank Htext Habs Hpos Hnow Hsum.
  rewrite parse_duration by assumption.
  rewrite (duration_separated (strip s) d g now) by assumption.
  assert (Hbound : Duration.seconds d / 86400 <= 999999999).
  { unfold in_range, MAX_US, MAXORDINAL, US_PER_SECOND in *.
    apply andb_true_iff in Hnow as [Hnow _].
    apply andb_true_iff in Hsum as [_ Hsum].
    apply Z.leb_le in Hnow, Hsum. apply Z.div_le_upper_bound; lia. }
  destruct (Z.ltb_spec 999999999 (Duration.seconds d / 86400)); [lia|].
  unfold datetime_add. by rewrite Hsum.
Qed.

Lemma separated_duration_added_witness :
  parse_duration_or_time Scenario.reject_all
    (" 1d" +:+ String (ascii_of_nat 9) (String (ascii_of_nat 10) "30M "))
    Scenario.T0
  = Return (Scenario.T0 + 88200 * US_PER_SECOND).
Proof.
  apply (separated_duration_added Scenario.reject_all _
           {| Duration.days := Some ("1", "d"%char); Duration.hours := None;
              Duration.mins := Some ("30", "M"%char); Duration.secs := None |}
           {| Separated.gap1 := String (ascii_of_nat 9) "";
              Separated.gap2 := String (ascii_of_nat 10) "";
              Separated.gap3 := "" |}).
  - repeat split; done.
  - repeat split; apply Nat.leb_le; reflexivity.
  - repeat split.
  - reflexivity.
  - reflexivity.
  - reflexivity.
  - reflexivity.
  - reflexivity.
Defined.

(** X9: a duration of positive total, with no number of more than 4300
    digits, that would lead past [datetime.max] is not answered with a
    [ValueError]: the parser raises [OverflowError]. *)
Theorem duration_past_max
    (dtparse : string -> option datetime) (s : string) (d : Duration.parts)
    (g : Separated.gaps) (now : Z) :
  Duration.valid d -> Duration.within_limit d -> Separated.blank g ->
  remove_spaces (strip s) = Separated.text d g ->
  absolute dtparse (strip s) = None ->
  0 < Duration.seconds d ->
  in_range (now + Duration.seconds d * US_PER_SECOND) = false ->
  parse_duration_or_time dtparse s now = Raise OverflowError.
Proof.
  intros Hvalid Hlimit Hblank Htext Habs Hpos Hsum.
  rewrite parse_duration by assumption.
  rewrite (duration_separated (strip s) d g now) by assumption.
  destruct (999999999 <? Duration.seconds d / 86400); [reflexivity|].
  unfold datetime_add. by rewrite Hsum.
Qed.

Lemma duration_past_max_witness :
  parse_duration_or_time Scenario.reject_all "4000000d" Scenario.T0
  = Raise OverflowError.
Proof.
  apply (duration_past_max Scenario.reject_all _
           {| Duration.days := Some ("4000000", "d"%char);
              Duration.hours := None; Duration.mins := None;
              Duration.secs := None |}
           {| Separated.gap1 := ""; Separated.gap2 := ""; Separated.gap3 := "" |}).
  - repeat split; done.
  - repeat split; apply Nat.leb_le; reflexivity.
  - repeat split.
  - reflexivity.
  - reflexivity.
  - reflexivity.
  - reflexivity.
Defined.

(** X10: a number without a unit letter is not a duration: when the
    absolute reading rejects the input and its stripped, space-free form
    consists of digits only, the parser raises [ValueError] with the
    hint. *)
Theorem number_without_unit
    (dtparse : string -> option datetime) (s : string) (now : Z) :
  absolute dtparse (strip s) = None ->
  remove_spaces (strip s) <> "" ->
  all_chars isdigit (remove_spaces (strip s)) = true ->
  parse_duration_or_time dtparse s now = Raise (ValueError HINT).
Proof.
  intros Habs Hne Hds. rewrite parse_duration by assumption.
  unfold duration. by rewrite fullmatch_digits.
Qed.

Lemma number_without_unit_witness :
  parse_duration_or_time Scenario.reject_all " 4 5 " Scenario.T0
  = Raise (ValueError HINT).
Proof.
  apply (number_without_unit Scenario.reject_all " 4 5 " Scenario.T0).
  - reflexivity.
  - discriminate.
  - reflexivity.
Defined.

(** ** [/action_start] *)

Section StartFacts.

Import Start.



End StartFacts.



(** X12: when the duration does not parse, [/action_start] stores
    nothing and arms nothing.  A [ValueError] becomes the reply and the
    state is as before; its message is the hint, the message of [int]
    about its limit of 4300 digits, or "Duration must be > 0.".  An
    [OverflowError] is not caught and leaves the command. *)
Theorem action_start_refuses
    (dtparse : string -> option datetime) (ia : Start.interaction)
    (action_type target duration : string) (channel : option Z)
    (note : option string) (s : state) (e : exn) :
  parse_duration_or_time dtparse duration (clock s) = Raise e ->
  (e = ValueError HINT
   /\ Start.action_start dtparse ia action_type target duration channel note s
      = Return (s, Start.ParseFailed HINT))
  \/ (exists n, (MAX_STR_DIGITS < n)%nat
        /\ e = ValueError (exceeds_limit n)
        /\ Start.action_start dtparse ia action_type target duration channel
             note s
           = Return (s, Start.ParseFailed (exceeds_limit n)))
  \/ (e = ValueError NOT_POSITIVE
      /\ Start.action_start dtparse ia action_type target duration channel note s
         = Return (s, Start.ParseFailed NOT_POSITIVE))
  \/ (e = OverflowError
      /\ Start.action_start dtparse ia action_type target duration channel note s
         = Raise OverflowError).
Proof.
  intros Hparse. unfold Start.action_start. rewrite Hparse.
  apply parse_raises in Hparse as [_ H].
  apply duration_raises in H as [[-> _]|[(n & Hn & ->)|[[-> _]|[-> _]]]];
    eauto 10.
Qed.

Lemma action_start_refuses_witness :
  Start.action_start Scenario.reject_all
    {| Start.i_guild := 10; Start.i_user := 20; Start.i_channel := 30 |}
    "Scout" "BaseX" "4000000d" None None Scenario.armed
  = Raise OverflowError.
Proof.
  destruct (action_start_refuses Scenario.reject_all
              {| Start.i_guild := 10; Start.i_user := 20; Start.i_channel := 30 |}
              "Scout" "BaseX" "4000000d" None None Scenario.armed
              OverflowError eq_refl)
    as [[H _]|[(n & _ & H & _)|[[H _]|[_ H]]]].
  - discriminate H.
  - discriminate H.
  - discriminate H.
  - exact H.
Defined.
